(** * Cache facade and memoization decorator of plugin.video.netflix

    A shallow embedding of [resources/lib/common/cache.py] and
    [resources/lib/common/cache_utils.py], together with the properties of
    the cache addressing scheme, the identifier derivation of the
    [cache_output] decorator, the dual-mode dispatch of the facade and the
    serialization codec.

    Python values are embedded as an inductive type, dictionaries as finite
    maps with string keys, exceptions as an error type, and the mutable
    environment (cache backend, state of the wrapped function, active
    profile, record of the calls made to collaborators) as an explicit
    state threaded through a state-and-error monad. *)

From Stdlib Require Import ZArith NArith List String Ascii Strings.Byte Bool Lia.
From Stdlib Require Import DecimalString DecimalPos DecimalZ.
From stdpp Require Import base option strings gmap.

Local Open Scope string_scope.
Local Open Scope Z_scope.

(** ** Python values *)

(** The values that flow through the identifier derivation: [None],
    booleans, integers, text strings, and objects.  An object is
    represented by what [str()] returns for it (for instance a video id
    object); it has the default truthiness, does not compare equal to a
    string and defines no addition. *)
Inductive pyval : Type :=
| VNone
| VBool (b : bool)
| VInt (z : Z)
| VStr (s : string)
| VObj (repr : string).

(** Python truth value testing ([if x:], [not x], [x and y], [x or y]). *)
Definition truthy (v : pyval) : bool :=
  match v with
  | VNone => false
  | VBool b => b
  | VInt z => negb (z =? 0)
  | VStr s => negb (String.eqb s "")
  | VObj _ => true
  end.

(** [str(x)], with the text semantics of Python 3 (on Python 2 [str] of a
    non-ASCII text is an encoding error, which is not represented). *)
Definition py_str (v : pyval) : string :=
  match v with
  | VNone => "None"
  | VBool true => "True"
  | VBool false => "False"
  | VInt z => NilZero.string_of_int (Z.to_int z)
  | VStr s => s
  | VObj repr => repr
  end.

(** [x or y] *)
Definition py_or (x y : pyval) : pyval := if truthy x then x else y.

(** [x is None] *)
Definition is_None (v : pyval) : bool :=
  match v with VNone => true | _ => false end.

(** [x == s] for a string literal [s] *)
Definition py_eq_str (v : pyval) (s : string) : bool :=
  match v with VStr s' => String.eqb s' s | _ => false end.

(** ** Exceptions and results *)

Inductive exn : Type :=
| CacheMiss
| IndexError
| TypeError
| UnboundLocalError
| OtherError (kind : string).

Definition is_CacheMiss (e : exn) : bool :=
  match e with CacheMiss => true | _ => false end.

Inductive res (A : Type) : Type :=
| Ok (a : A)
| Raise (e : exn).
Arguments Ok {A} a.
Arguments Raise {A} e.

Definition res_bind {A B} (r : res A) (k : A -> res B) : res B :=
  match r with
  | Ok a => k a
  | Raise e => Raise e
  end.

(** [s1 + s2]: string concatenation, a [TypeError] for any other pair of
    the modelled values. *)
Definition py_add (x y : pyval) : res pyval :=
  match x, y with
  | VStr a, VStr b => Ok (VStr (a ++ b))
  | _, _ => Raise TypeError
  end.

(** [t[i]] on a tuple: negative indices count from the end, anything
    outside [-len(t) <= i < len(t)] raises [IndexError]. *)
Definition py_index (t : list pyval) (i : Z) : res pyval :=
  let n := Z.of_nat (List.length t) in
  let j := if i <? 0 then n + i else i in
  if (0 <=? j) && (j <? n)
  then match nth_error t (Z.to_nat j) with
       | Some v => Ok v
       | None => Raise IndexError
       end
  else Raise IndexError.

(** [kwargs.get(name)] *)
Definition kwargs_get (kwargs : gmap string pyval) (name : string) : pyval :=
  default VNone (kwargs !! name).

(** ** Buckets (cache_utils.py) *)

Definition bytes := list byte.

Record bucket : Type := mkBucket {
  name : string;
  is_persistent : bool;
  default_ttl : Z
}.

(** The part of [resources.lib.globals.g] that the two modules read. *)
Record globals : Type := mkGlobals {
  IS_SERVICE : bool;
  PY_IS_VER2 : bool;
  CACHE_TTL : Z;
  CACHE_METADATA_TTL : Z
}.

Definition CACHE_COMMON (g : globals) := mkBucket "cache_common" false (CACHE_TTL g).
Definition CACHE_GENRES (g : globals) := mkBucket "cache_genres" false (CACHE_TTL g).
Definition CACHE_SUPPLEMENTAL (g : globals) := mkBucket "cache_supplemental" false (CACHE_TTL g).
Definition CACHE_METADATA (g : globals) := mkBucket "cache_metadata" true (CACHE_METADATA_TTL g).
Definition CACHE_INFOLABELS (g : globals) := mkBucket "cache_infolabels" true (CACHE_METADATA_TTL g).
Definition CACHE_ARTINFO (g : globals) := mkBucket "cache_artinfo" true (CACHE_METADATA_TTL g).
Definition CACHE_MANIFESTS (g : globals) := mkBucket "cache_manifests" false (CACHE_TTL g).
Definition CACHE_BOOKMARKS (g : globals) := mkBucket "cache_bookmarks" false (CACHE_TTL g).

Definition BUCKET_NAMES : list string :=
  ["cache_common"; "cache_genres"; "cache_supplemental"; "cache_metadata";
   "cache_infolabels"; "cache_artinfo"; "cache_manifests"; "cache_bookmarks"].

Definition BUCKETS (g : globals) : list bucket :=
  [CACHE_COMMON g; CACHE_GENRES g; CACHE_SUPPLEMENTAL g; CACHE_METADATA g;
   CACHE_INFOLABELS g; CACHE_ARTINFO g; CACHE_MANIFESTS g; CACHE_BOOKMARKS g].

Definition CACHE_MYLIST_TTL_MAX : Z := 7200.

(** Values of the entries of a call-parameter dictionary, and replies of
    the cache backend. *)
Inductive value : Type :=
| PVal (v : pyval)
| PBucket (b : bucket)
| PBuckets (bs : list bucket)
| PBytes (d : bytes).

Abbreviation params := (gmap string value).

(** ** Base64 (Python's [base64.standard_b64encode] / [standard_b64decode])

    The standard alphabet of RFC 4648, with [=] padding.  The decoder is
    exact on the well-formed encodings (a sequence of four-character
    groups, padding only in the last one), which is what the encoder
    produces, and fails on anything else; Python's decoder is more lenient
    there (it discards the characters outside the alphabet), which is not
    represented. *)
Module Base64.

Definition alphabet : bytes :=
  list_byte_of_string
    "ABCDEFGHIJKLMNOPQRSTUVWXYZabcdefghijklmnopqrstuvwxyz0123456789+/".

Definition pad : byte := "="%byte.

(** The character of a 6-bit group. *)
Definition char_of (n : N) : byte := nth (N.to_nat n) alphabet pad.

Fixpoint position (c : byte) (l : bytes) (i : N) : option N :=
  match l with
  | [] => None
  | x :: l' => if Byte.eqb x c then Some i else position c l' (N.succ i)
  end.

(** The 6-bit group of a character, if it belongs to the alphabet. *)
Definition index_of (c : byte) : option N := position c alphabet 0%N.

(** Every 6-bit group is read back from its character, and no character
    of the alphabet is the padding character (a check on the table). *)
Definition alphabet_ok : bool :=
  forallb
    (fun i =>
       match index_of (char_of (N.of_nat i)) with
       | Some j => N.eqb j (N.of_nat i)
       | None => false
       end && negb (Byte.eqb (char_of (N.of_nat i)) pad))
    (List.seq 0 64).

(** Three bytes make four 6-bit groups. *)
Definition encode3 (a b c : byte) : bytes :=
  let x := Byte.to_N a in
  let y := Byte.to_N b in
  let z := Byte.to_N c in
  [ char_of (x / 4);
    char_of ((x mod 4) * 16 + y / 16);
    char_of ((y mod 16) * 4 + z / 64);
    char_of (z mod 64) ]%N.

Definition encode2 (a b : byte) : bytes :=
  let x := Byte.to_N a in
  let y := Byte.to_N b in
  [ char_of (x / 4);
    char_of ((x mod 4) * 16 + y / 16);
    char_of ((y mod 16) * 4);
    pad ]%N.

Definition encode1 (a : byte) : bytes :=
  let x := Byte.to_N a in
  [ char_of (x / 4); char_of ((x mod 4) * 16); pad; pad ]%N.

Fixpoint standard_b64encode (s : bytes) : bytes :=
  match s with
  | [] => []
  | [a] => encode1 a
  | [a; b] => encode2 a b
  | a :: b :: c :: rest => (encode3 a b c ++ standard_b64encode rest)%list
  end.

(** A group of four characters without padding. *)
Definition decode_full (c0 c1 c2 c3 : byte) : option bytes :=
  s0 ← index_of c0;
  s1 ← index_of c1;
  s2 ← index_of c2;
  s3 ← index_of c3;
  a ← Byte.of_N (s0 * 4 + s1 / 16)%N;
  b ← Byte.of_N ((s1 mod 16) * 16 + s2 / 4)%N;
  c ← Byte.of_N ((s2 mod 4) * 64 + s3)%N;
  Some [a; b; c].

(** The last group, which may end in one or two padding characters. *)
Definition decode_last (c0 c1 c2 c3 : byte) : option bytes :=
  if Byte.eqb c3 pad then
    if Byte.eqb c2 pad then
      s0 ← index_of c0;
      s1 ← index_of c1;
      a ← Byte.of_N (s0 * 4 + s1 / 16)%N;
      Some [a]
    else
      s0 ← index_of c0;
      s1 ← index_of c1;
      s2 ← index_of c2;
      a ← Byte.of_N (s0 * 4 + s1 / 16)%N;
      b ← Byte.of_N ((s1 mod 16) * 16 + s2 / 4)%N;
      Some [a; b]
  else decode_full c0 c1 c2 c3.

Fixpoint decode_groups (s : bytes) : option bytes :=
  match s with
  | [] => Some []
  | c0 :: c1 :: c2 :: c3 :: rest =>
      match rest with
      | [] => decode_last c0 c1 c2 c3
      | _ :: _ =>
          q ← decode_full c0 c1 c2 c3;
          r ← decode_groups rest;
          Some (q ++ r)%list
      end
  | _ => None
  end.

(** On Python 2, the path that uses base64, a malformed input raises
    [TypeError]. *)
Definition standard_b64decode (s : bytes) : res bytes :=
  match decode_groups s with
  | Some d => Ok d
  | None => Raise TypeError
  end.

(** A sequence of characters of the alphabet and padding characters. *)
Definition is_text (s : bytes) : Prop :=
  Forall (fun c => In c alphabet \/ c = pad) s.

End Base64.

(** ** Collaborators and program state *)

(** What the two modules use but do not define: the globals, the cache
    management of the service process ([g.CACHE_MANAGEMENT], whose methods
    are looked up by name), the IPC call to the cache service
    ([make_http_call_cache]) and [pickle].  [Store] is the state of the
    cache-owning process; [AppState] is the state that wrapped functions
    work on. *)
Class Platform : Type := {
  Store : Type;
  AppState : Type;
  g : globals;
  CACHE_MANAGEMENT : string -> params -> Store -> res value * Store;
  make_http_call_cache : string -> params -> value -> Store -> res value * Store;
  pickle_dumps : pyval -> res bytes;
  pickle_loads : bytes -> res pyval
}.

(** The calls that leave the two modules, in the order they are made. *)
Inductive event : Type :=
| EvManagement (callname : string) (p : params)
| EvHttp (callname : string) (p : params) (data : value)
| EvFunc (args : list pyval) (kwargs : gmap string pyval).

Record World `{Platform} : Type := mkWorld {
  store : Store;
  app : AppState;
  active_profile_guid : string;
  trace : list event
}.

(** State-and-error monad: an exception keeps the state reached so far. *)
Definition M `{Platform} (A : Type) : Type := World -> res A * World.

Definition ret `{Platform} {A} (a : A) : M A := fun w => (Ok a, w).

Definition raise `{Platform} {A} (e : exn) : M A := fun w => (Raise e, w).

Definition bind `{Platform} {A B} (m : M A) (k : A -> M B) : M B :=
  fun w =>
    match m w with
    | (Ok a, w') => k a w'
    | (Raise e, w') => (Raise e, w')
    end.

Definition lift `{Platform} {A} (r : res A) : M A := fun w => (r, w).

(** [try: body except CacheMiss: handler] *)
Definition try_except_CacheMiss `{Platform} {A} (body handler : M A) : M A :=
  fun w =>
    match body w with
    | (Raise CacheMiss, w') => handler w'
    | r => r
    end.

Declare Scope py_scope.
Delimit Scope py_scope with py.
Notation "x <- m ;; k" := (bind m (fun x => k))
  (at level 100, m at next level, right associativity) : py_scope.

Definition record `{Platform} (e : event) (w : World) : World :=
  mkWorld _ (store w) (app w) (active_profile_guid w) (trace w ++ [e])%list.

(** [getattr(g.CACHE_MANAGEMENT, callname)] applied to the keyword
    arguments [p] *)
Definition call_management `{Platform} (callname : string) (p : params) : M value :=
  fun w =>
    let w1 := record (EvManagement callname p) w in
    let '(r, s) := CACHE_MANAGEMENT callname p (store w1) in
    (r, mkWorld _ s (app w1) (active_profile_guid w1) (trace w1)).

(** [make_http_call_cache(callname, p, data)] *)
Definition call_http `{Platform} (callname : string) (p : params) (data : value) : M value :=
  fun w =>
    let w1 := record (EvHttp callname p data) w in
    let '(r, s) := make_http_call_cache callname p data (store w1) in
    (r, mkWorld _ s (app w1) (active_profile_guid w1) (trace w1)).

(** A Python function of the application, called with positional and
    keyword arguments. *)
Definition pyfun `{Platform} : Type :=
  list pyval -> gmap string pyval -> AppState -> res pyval * AppState.

Definition call `{Platform} (func : pyfun) (args : list pyval)
    (kwargs : gmap string pyval) : M pyval :=
  fun w =>
    let w1 := record (EvFunc args kwargs) w in
    let '(r, a) := func args kwargs (app w1) in
    (r, mkWorld _ (store w1) a (active_profile_guid w1) (trace w1)).

(** ** cache.py *)

Definition _make_call `{Platform} (callname : string) (p : params) (data : value) : M value :=
  if IS_SERVICE g then
    let p := if decide (is_Some (p !! "data")) then <["data" := data]> p else p in
    call_management callname p
  else
    call_http callname p data.

Definition as_bytes (v : value) : res bytes :=
  match v with
  | PBytes d => Ok d
  | _ => Raise TypeError
  end.

Definition _serialize_data `{Platform} (v : pyval) : res bytes :=
  if PY_IS_VER2 g then
    res_bind (pickle_dumps v) (fun d => Ok (Base64.standard_b64encode d))
  else
    pickle_dumps v.

Definition _deserialize_data `{Platform} (v : value) : res pyval :=
  if PY_IS_VER2 g then
    res_bind (as_bytes v) (fun d =>
    res_bind (Base64.standard_b64decode d) pickle_loads)
  else
    res_bind (as_bytes v) pickle_loads.

Module Cache.

Definition get `{Platform} (bucket : bucket) (identifier : pyval) : M pyval :=
  (let call_args : params :=
     {[ "bucket" := PBucket bucket;
        "identifier" := PVal (VStr (py_str identifier)) ]} in
   data <- _make_call "get" call_args (PVal VNone) ;;
   lift (_deserialize_data data))%py.

Definition add `{Platform} (bucket : bucket) (identifier : pyval) (data : pyval)
    (ttl expires : pyval) : M unit :=
  (let call_args : params :=
     {[ "bucket" := PBucket bucket;
        "identifier" := PVal (VStr (py_str identifier));
        "data" := PVal VNone;
        "ttl" := PVal ttl;
        "expires" := PVal expires ]} in
   payload <- lift (_serialize_data data) ;;
   _ <- _make_call "add" call_args (PBytes payload) ;;
   ret tt)%py.

Definition delete `{Platform} (bucket : bucket) (identifier : pyval) : M unit :=
  (let call_args : params :=
     {[ "bucket" := PBucket bucket;
        "identifier" := PVal (VStr (py_str identifier)) ]} in
   _ <- _make_call "delete" call_args (PVal VNone) ;;
   ret tt)%py.

Definition clear `{Platform} (buckets : option (list bucket)) (clear_database : bool) : M unit :=
  (let call_args : params :=
     {[ "buckets" := match buckets with
                     | Some bs => PBuckets bs
                     | None => PVal VNone
                     end;
        "clear_database" := PVal (VBool clear_database) ]} in
   _ <- _make_call "clear" call_args (PVal VNone) ;;
   ret tt)%py.

End Cache.

(** ** cache_utils.py *)

(** [g.LOCAL_DB.get_active_profile_guid() + '_' + partial_identifier] *)
Definition generate_identifier `{Platform} (partial_identifier : string) : M string :=
  fun w => (Ok (active_profile_guid w ++ "_" ++ partial_identifier), w).

(** Truth value of an optional keyword-argument name (a name or [None]). *)
Definition name_truthy (n : option string) : bool :=
  match n with
  | Some s => negb (String.eqb s "")
  | None => false
  end.

Definition kwargs_get_opt (kwargs : gmap string pyval) (n : option string) : pyval :=
  match n with
  | Some s => kwargs_get kwargs s
  | None => VNone
  end.

Definition _get_identifier `{Platform}
    (fixed_identifier : pyval)
    (identify_from_kwarg_name : string)
    (identify_append_from_kwarg_name : option string)
    (identify_fallback_arg_index : Z)
    (args : list pyval) (kwargs : gmap string pyval) : M (pyval * string) :=
  (let arg_value := VNone in
   if truthy fixed_identifier then
     let identifier := fixed_identifier in
     ident <- generate_identifier (py_str identifier) ;;
     ret (arg_value, ident)
   else
     let identifier := kwargs_get kwargs identify_from_kwarg_name in
     fallback <-
       (if negb (truthy identifier) && negb (Nat.eqb (List.length args) 0) then
          arg_value <- lift (py_index args identify_fallback_arg_index) ;;
          ret (arg_value, arg_value)
        else ret (arg_value, identifier)) ;;
     let '(arg_value, identifier) := fallback in
     identifier <-
       (if truthy identifier
           && name_truthy identify_append_from_kwarg_name
           && truthy (kwargs_get_opt kwargs identify_append_from_kwarg_name) then
          suffix <- lift (py_add (VStr "_")
                            (kwargs_get_opt kwargs identify_append_from_kwarg_name)) ;;
          lift (py_add identifier suffix)
        else ret identifier) ;;
     ident <- generate_identifier (py_str identifier) ;;
     ret (arg_value, ident))%py.

(** The decorator: [cache_output(bucket, ...)(func)] is the wrapper.
    [g.CACHE] is an instance of the facade [Cache] of cache.py. *)
Definition cache_output `{Platform}
    (bucket : bucket)
    (fixed_identifier : pyval)
    (identify_from_kwarg_name : string)
    (identify_append_from_kwarg_name : option string)
    (identify_fallback_arg_index : Z)
    (ttl : pyval)
    (func : pyfun)
    (args : list pyval) (kwargs : gmap string pyval) : M pyval :=
  fun w =>
    match _get_identifier fixed_identifier identify_from_kwarg_name
            identify_append_from_kwarg_name identify_fallback_arg_index
            args kwargs w with
    | (Raise e, w1) =>
        (* an exception of the derivation leaves [identifier] unbound *)
        if is_CacheMiss e then
          (output <- call func args kwargs ;; raise UnboundLocalError)%py w1
        else (Raise e, w1)
    | (Ok (arg_value, identifier), w1) =>
        let ttl_override :=
          if is_None ttl && py_eq_str arg_value "mylist"
          then VInt (Z.min (CACHE_TTL g) CACHE_MYLIST_TTL_MAX)
          else VNone in
        try_except_CacheMiss
          (if negb (truthy (VStr identifier)) then
             (* Do not cache if identifier couldn't be determined *)
             call func args kwargs
           else
             Cache.get bucket (VStr identifier))
          (output <- call func args kwargs ;;
           _ <- Cache.add bucket (VStr identifier) output (py_or ttl ttl_override) VNone ;;
           ret output)%py
          w1
    end.

(** The decorator with the default options of its signature. *)
Definition cache_output_default `{Platform} (bucket : bucket) (func : pyfun) :=
  cache_output bucket VNone "videoid" None 0 VNone func.

(** ** Observing a run *)

(** The parameter dictionaries that the facade builds. *)
Definition get_call_args (bucket : bucket) (identifier : string) : params :=
  {[ "bucket" := PBucket bucket; "identifier" := PVal (VStr identifier) ]}.

Definition add_call_args (bucket : bucket) (identifier : string)
    (data : value) (ttl expires : pyval) : params :=
  {[ "bucket" := PBucket bucket;
     "identifier" := PVal (VStr identifier);
     "data" := data;
     "ttl" := PVal ttl;
     "expires" := PVal expires ]}.

Definition clear_call_args (buckets : option (list bucket)) (clear_database : bool) : params :=
  {[ "buckets" := match buckets with
                  | Some bs => PBuckets bs
                  | None => PVal VNone
                  end;
     "clear_database" := PVal (VBool clear_database) ]}.

(** What the cache-owning process is asked to do by a call of the facade,
    as a function of its store: reached directly in the service process,
    through the channel otherwise. *)
Definition backend `{Platform} (callname : string) (p : params) (data : value)
    (s : Store) : res value * Store :=
  if IS_SERVICE g then
    CACHE_MANAGEMENT callname
      (if decide (is_Some (p !! "data")) then <["data" := data]> p else p) s
  else make_http_call_cache callname p data s.

(** The event that such a call leaves in the trace. *)
Definition dispatch_event `{Platform} (callname : string) (p : params) (data : value) : event :=
  if IS_SERVICE g then
    EvManagement callname
      (if decide (is_Some (p !! "data")) then <["data" := data]> p else p)
  else EvHttp callname p data.

Definition event_callname (e : event) : option string :=
  match e with
  | EvManagement n _ => Some n
  | EvHttp n _ _ => Some n
  | EvFunc _ _ => None
  end.

Definition event_params (e : event) : params :=
  match e with
  | EvManagement _ p => p
  | EvHttp _ p _ => p
  | EvFunc _ _ => ∅
  end.

(** Number of invocations of the wrapped function in a trace. *)
Definition invocations (tr : list event) : nat :=
  List.length (List.filter (fun e => match e with EvFunc _ _ => true | _ => false end) tr).

(** The [ttl] parameters of the [add] calls of a trace. *)
Definition added_ttl (tr : list event) : list (option value) :=
  List.map (fun e => event_params e !! "ttl")
    (List.filter (fun e => match event_callname e with
                           | Some n => String.eqb n "add"
                           | None => false
                           end) tr).

(** The ttl that the wrapper hands to [add]: [ttl or ttl_override]. *)
Definition effective_ttl `{Platform} (ttl arg_value : pyval) : pyval :=
  py_or ttl
    (if is_None ttl && py_eq_str arg_value "mylist"
     then VInt (Z.min (CACHE_TTL g) CACHE_MYLIST_TTL_MAX)
     else VNone).

(** A profile guid without underscore. *)
Fixpoint underscore_free (s : string) : bool :=
  match s with
  | EmptyString => true
  | String c s' => negb (Ascii.eqb c "_"%char) && underscore_free s'
  end.

(** Another profile becomes the active one. *)
Definition switch_profile `{Platform} (guid : string) (w : World) : World :=
  mkWorld _ (store w) (app w) guid (trace w).

(** The cache backend keeps one entry per identifier: an [add] under one
    identifier does not change what a [get] under another one answers. *)
Definition keyed_by_identifier `{Platform} : Prop :=
  forall (b1 b2 : bucket) (i1 i2 : string) (d : bytes) (ttl expires : pyval) (s : Store),
    i1 <> i2 ->
    fst (backend "get" (get_call_args b2 i2) (PVal VNone)
           (snd (backend "add" (add_call_args b1 i1 (PVal VNone) ttl expires) (PBytes d) s)))
    = fst (backend "get" (get_call_args b2 i2) (PVal VNone) s).

(** ** A reference platform

    A concrete instance of the collaborators, on which the statements
    below are exercised. *)
Module Reference.

(** Modelled from the spec: a CacheEntry of the Cache Store
    ([cache_management.py] is not among the sources), reduced to its
    payload and its expiry instant. *)
Record entry : Type := mkEntry {
  payload : bytes;
  expires_at : Z
}.

(** Modelled from the spec: the state of the Cache Store
    ([cache_management.py] is not among the sources).  An in-memory map
    keyed by bucket name and identifier, read at the instant [now].  The
    payload is stored as the facade hands it over (already serialized);
    the durable mirror of persistent buckets is not represented. *)
Record cache_store : Type := mkStore {
  now : Z;
  memory : gmap (string * string) entry
}.

(** Modelled from the spec: lookup of a bucket in the Bucket Registry, an
    [UnknownBucket] error if its name is not registered. *)
Definition get_bucket (p : params) : res bucket :=
  match p !! "bucket" with
  | Some (PBucket b) =>
      if bool_decide (name b ∈ BUCKET_NAMES) then Ok b
      else Raise (OtherError "UnknownBucket")
  | _ => Raise TypeError
  end.

Definition get_identifier (p : params) : res string :=
  match p !! "identifier" with
  | Some (PVal (VStr s)) => Ok s
  | _ => Raise TypeError
  end.

(** Modelled from the spec: [get] of the Cache Store.  It fails with
    [CacheMiss] if the entry is absent or its [expires_at] is in the past
    (compared with the current time at lookup), and evicts an expired
    entry. *)
Definition store_get (p : params) (s : cache_store) : res value * cache_store :=
  match get_bucket p, get_identifier p with
  | Ok b, Ok i =>
      match memory s !! (name b, i) with
      | Some e =>
          if expires_at e <? now s
          then (Raise CacheMiss, mkStore (now s) (delete (name b, i) (memory s)))
          else (Ok (PBytes (payload e)), s)
      | None => (Raise CacheMiss, s)
      end
  | Raise e, _ => (Raise e, s)
  | _, Raise e => (Raise e, s)
  end.

(** Modelled from the spec: the effective [expires_at] of an [add]: the
    explicit expiry, else the explicit ttl from now, else the default ttl
    of the bucket from now. *)
Definition effective_expires (b : bucket) (p : params) (t : Z) : Z :=
  match p !! "expires", p !! "ttl" with
  | Some (PVal (VInt e)), _ => e
  | _, Some (PVal (VInt ttl)) => t + ttl
  | _, _ => t + default_ttl b
  end.

(** Modelled from the spec: [add] of the Cache Store.  It overwrites any
    prior entry at the same key. *)
Definition store_add (p : params) (s : cache_store) : res value * cache_store :=
  match get_bucket p, get_identifier p, p !! "data" with
  | Ok b, Ok i, Some (PBytes d) =>
      (Ok (PVal VNone),
       mkStore (now s)
         (<[(name b, i) := mkEntry d (effective_expires b p (now s))]> (memory s)))
  | Raise e, _, _ => (Raise e, s)
  | _, Raise e, _ => (Raise e, s)
  | _, _, _ => (Raise TypeError, s)
  end.

(** Modelled from the spec: [delete] of the Cache Store, a no-op if the
    entry is absent. *)
Definition store_delete (p : params) (s : cache_store) : res value * cache_store :=
  match get_bucket p, get_identifier p with
  | Ok b, Ok i => (Ok (PVal VNone), mkStore (now s) (delete (name b, i) (memory s)))
  | Raise e, _ => (Raise e, s)
  | _, Raise e => (Raise e, s)
  end.

(** Modelled from the spec: [clear] of the Cache Store.  It empties the
    given buckets, or all of them when none is given. *)
Definition store_clear (p : params) (s : cache_store) : res value * cache_store :=
  match p !! "buckets" with
  | Some (PBuckets bs) =>
      (Ok (PVal VNone),
       mkStore (now s)
         (filter (fun kv => negb (bool_decide (fst (fst kv) ∈ map name bs))) (memory s)))
  | Some (PVal VNone) => (Ok (PVal VNone), mkStore (now s) ∅)
  | _ => (Raise TypeError, s)
  end.

(** Modelled from the spec: the methods of the cache management object of
    the service process, looked up by name. *)
Definition management (callname : string) (p : params) (s : cache_store)
  : res value * cache_store :=
  if String.eqb callname "get" then store_get p s
  else if String.eqb callname "add" then store_add p s
  else if String.eqb callname "delete" then store_delete p s
  else if String.eqb callname "clear" then store_clear p s
  else (Raise (OtherError "AttributeError"), s).

(** Modelled from the spec: the inter-process channel ([ipc.py] is not
    among the sources).  The owning process receives the method name, the
    parameters and the separate binary payload, executes the call against
    its Store and returns the result or re-raises the signal. *)
Definition http_call (callname : string) (p : params) (data : value) (s : cache_store)
  : res value * cache_store :=
  management callname
    (if decide (is_Some (p !! "data")) then <["data" := data]> p else p) s.

(** A stand-in for [pickle] on text strings, [None] and booleans; every
    other value is refused as not serializable. *)
Definition dumps (v : pyval) : res bytes :=
  match v with
  | VNone => Ok ["N"%byte]
  | VBool true => Ok ["T"%byte]
  | VBool false => Ok ["F"%byte]
  | VStr s => Ok ("X"%byte :: list_byte_of_string s)
  | _ => Raise (OtherError "PicklingError")
  end.

Definition loads (d : bytes) : res pyval :=
  match d with
  | ["N"%byte] => Ok VNone
  | ["T"%byte] => Ok (VBool true)
  | ["F"%byte] => Ok (VBool false)
  | "X"%byte :: s => Ok (VStr (string_of_list_byte s))
  | _ => Raise (OtherError "UnpicklingError")
  end.

Definition platform (is_service py2 : bool) (cache_ttl : Z) : Platform := {|
  Store := cache_store;
  AppState := nat;
  g := mkGlobals is_service py2 cache_ttl 2592000;
  CACHE_MANAGEMENT := management;
  make_http_call_cache := http_call;
  pickle_dumps := dumps;
  pickle_loads := loads
|}.

(** A wrapped function that counts its invocations and answers
    differently each time. *)
Definition counting_func (args : list pyval) (kwargs : gmap string pyval) (n : nat)
  : res pyval * nat :=
  (Ok (VStr (match n with O => "first" | _ => "again" end)), S n).

(** A wrapped function that fails, and one whose output the stand-in
    for [pickle] refuses. *)
Definition failing_func (args : list pyval) (kwargs : gmap string pyval) (n : nat)
  : res pyval * nat :=
  (Raise (OtherError "HTTPError"), S n).

Definition number_func (args : list pyval) (kwargs : gmap string pyval) (n : nat)
  : res pyval * nat :=
  (Ok (VInt 42), S n).

(** The service process on Python 3 and a client process on Python 2. *)
Definition service_py3 : Platform := platform true false 86400.
Definition client_py2 : Platform := platform false true 86400.

(** An empty cache at instant 1000, no call made yet. *)
Definition start (p : Platform) (s : @Store p) (a : @AppState p) (guid : string) : @World p :=
  @mkWorld p s a guid [].

Definition service_world (guid : string) : @World service_py3 :=
  start service_py3 (mkStore 1000 ∅) 0%nat guid.

Definition client_world (guid : string) : @World client_py2 :=
  start client_py2 (mkStore 1000 ∅) 0%nat guid.

End Reference.

(** ** kodi/library.py: the library of exported items *)
Module Library.

(** The library is a dictionary of dictionaries, one level per element
    of a video id, whose leaves are the strings stored under ['file']. *)
#[warnings="-register-all"] Inductive node : Type :=
| LStr (s : string)
| LDict (d : gmap string node).

(** Truth value of [__LIBRARY__], which is [None] until it is loaded. *)
Definition library_truthy (l : option node) : bool :=
  match l with
  | None => false
  | Some (LStr s) => negb (String.eqb s "")
  | Some (LDict d) => negb (bool_decide (d = ∅))
  end.

(** The cache module that library.py imports ([resources.lib.cache]):
    [cache.get(cache.CACHE_LIBRARY, 'library')] and
    [cache.add(cache.CACHE_LIBRARY, 'library', content,
    ttl=cache.TTL_INFINITE, to_disk=True)], over the state [Disk] of that
    cache. *)
Class LibraryCache : Type := {
  Disk : Type;
  cache_get_library : Disk -> res node * Disk;
  cache_add_library : node -> Disk -> res unit * Disk
}.

(** The module state: the global [__LIBRARY__], the cache, and the
    contents handed to [cache.add] so far. *)
Record State `{LibraryCache} : Type := mkState {
  LIBRARY : option node;
  disk : Disk;
  saved : list node
}.

Definition LM `{LibraryCache} (A : Type) : Type := State -> res A * State.

(** The body of the [if not __LIBRARY__:] of [_library]: the library is
    read from the cache, a [CacheMiss] gives an empty one. *)
Definition load_library `{LibraryCache} : LM node :=
  fun w =>
    match cache_get_library (disk w) with
    | (Ok v, d) => (Ok v, mkState _ (Some v) d (saved w))
    | (Raise CacheMiss, d) => (Ok (LDict ∅), mkState _ (Some (LDict ∅)) d (saved w))
    | (Raise e, d) => (Raise e, mkState _ (LIBRARY w) d (saved w))
    end.

Definition _library `{LibraryCache} : LM node :=
  fun w =>
    match LIBRARY w with
    | Some l => if library_truthy (Some l) then (Ok l, w) else load_library w
    | None => load_library w
    end.

Definition save_library `{LibraryCache} : LM unit :=
  fun w =>
    match LIBRARY w with
    | Some l =>
        let '(r, d) := cache_add_library l (disk w) in
        (r, mkState _ (LIBRARY w) d (saved w ++ [l])%list)
    | None => (Ok tt, w)
    end.

(** The loop of [_add_to_library] and the assignment that follows it, on
    the node that [library_node] starts from: a missing element of the
    id gets an empty dictionary, the walk goes down one level per element,
    and the last node gets the file name under ['file'].  Membership
    tests and item assignments on a string are a [TypeError]; they can
    only happen before the first assignment. *)
Fixpoint add_path (ids : list string) (export_filename : string) (library_node : node)
  : res node :=
  match library_node with
  | LStr _ => Raise TypeError
  | LDict d =>
      match ids with
      | [] => Ok (LDict (<["file" := LStr export_filename]> d))
      | id_item :: rest =>
          res_bind
            (add_path rest export_filename
               (match d !! id_item with
                | Some child => child
                | None => LDict ∅
                end))
            (fun child => Ok (LDict (<[id_item := child]> d)))
      end
  end.

(** [_add_to_library(videoid, export_filename)], with [ids] the list
    [videoid.to_list()].  The walk updates the nodes of [__LIBRARY__] in
    place. *)
Definition _add_to_library `{LibraryCache} (ids : list string) (export_filename : string)
  : LM unit :=
  fun w =>
    match _library w with
    | (Ok library_node, w1) =>
        match add_path ids export_filename library_node with
        | Ok updated =>
            save_library (mkState _ (Some updated) (disk w1) (saved w1))
        | Raise e => (Raise e, w1)
        end
    | (Raise e, w1) => (Raise e, w1)
    end.

(** Chained subscripting [node[k1][k2]...], [None] where Python raises. *)
Fixpoint subscript (n : node) (keys : list string) : option node :=
  match keys with
  | [] => Some n
  | k :: rest =>
      match n with
      | LDict d =>
          match d !! k with
          | Some child => subscript child rest
          | None => None
          end
      | LStr _ => None
      end
  end.

(** A stand-in for the imported cache module: it keeps the last library
    that was saved, and misses until one was. *)
Definition last_saved : LibraryCache := {|
  Disk := option node;
  cache_get_library := fun d =>
    match d with
    | Some l => (Ok l, d)
    | None => (Raise CacheMiss, d)
    end;
  cache_add_library := fun l d => (Ok tt, Some l)
|}.

Definition fresh : @State last_saved := @mkState last_saved None None [].

End Library.

(** ** kodi/library.py: the export tasks of a show *)
Module Tasks.

(** The metadata of a title, as decoded from JSON. *)
#[warnings="-register-all"] Inductive json : Type :=
| JNone
| JBool (b : bool)
| JInt (z : Z)
| JStr (s : string)
| JList (l : list json)
| JDict (d : gmap string json).

Definition json_truthy (v : json) : bool :=
  match v with
  | JNone => false
  | JBool b => b
  | JInt z => negb (Z.eqb z 0)
  | JStr s => negb (String.eqb s "")
  | JList l => negb (Nat.eqb (List.length l) 0)
  | JDict d => negb (bool_decide (d = ∅))
  end.

(** [v[key]] with a string key: a [KeyError] on a dictionary without
    the key, a [TypeError] on anything else. *)
Definition getitem (v : json) (key : string) : res json :=
  match v with
  | JDict d =>
      match d !! key with
      | Some x => Ok x
      | None => Raise (OtherError "KeyError")
      end
  | _ => Raise TypeError
  end.

(** The elements that [for x in v] goes through: the elements of a
    list, the keys of a dictionary (in an order that is not represented),
    the characters of a string; the other values are not iterable. *)
Definition py_iter (v : json) : res (list json) :=
  match v with
  | JList l => Ok l
  | JDict d => Ok (List.map (fun kv => JStr (fst kv)) (map_to_list d))
  | JStr s => Ok (List.map (fun c => JStr (String c EmptyString)) (list_ascii_of_string s))
  | _ => Raise TypeError
  end.

(** Zero padding to two characters; a string of one character has no
    sign. *)
Definition pad2 (s : string) : string :=
  if Nat.ltb (String.length s) 2 then "0" ++ s else s.

(** [format(v, '02d')]: an integer (a boolean is one) in decimal, padded
    with zeros to a width of two; a [ValueError] for a string, a
    [TypeError] for the values that have no format of their own. *)
Definition format_02d (v : json) : res string :=
  match v with
  | JInt z => Ok (pad2 (py_str (VInt z)))
  | JBool b => Ok (pad2 (if b then "1" else "0"))
  | JStr _ => Raise (OtherError "ValueError")
  | _ => Raise TypeError
  end.

(** An item of [str.join]: anything but a string is a [TypeError]. *)
Definition as_str (v : json) : res string :=
  match v with
  | JStr s => Ok s
  | _ => Raise TypeError
  end.

(** What library.py uses of [common.VideoId] and of [common]: the
    attributes [seasonid] and [episodeid], the methods [derive_season]
    and [derive_episode], and the functions [find_season] and
    [find_episode]. *)
Class VideoIds : Type := {
  VideoId : Type;
  seasonid : VideoId -> json;
  episodeid : VideoId -> json;
  derive_season : VideoId -> json -> res VideoId;
  derive_episode : VideoId -> json -> res VideoId;
  find_season : json -> json -> res json;
  find_episode : json -> json -> res json
}.

Definition FOLDER_MOVIES : string := "movies".
Definition FOLDER_TV : string := "shows".

(** A task item: the dictionary that [_create_item_task] builds. *)
Record task `{VideoIds} : Type := mkTask {
  title : string;
  section : string;
  videoid : VideoId;
  destination : string;
  filename : string
}.

Definition _create_item_task `{VideoIds} (title section : string) (videoid : VideoId)
    (destination filename : string) : task :=
  mkTask _ title section videoid destination filename.

(** [_create_episode_task(videoid, metadata, season, episode)]; [JNone]
    stands for an argument left to its default [None]. *)
Definition _create_episode_task `{VideoIds} (videoid : VideoId) (metadata season episode : json)
  : res task :=
  res_bind (getitem metadata "title") (fun showname =>
  res_bind (if json_truthy season then Ok season
            else res_bind (getitem metadata "seasons")
                   (find_season (seasonid videoid))) (fun season =>
  res_bind (if json_truthy episode then Ok episode
            else res_bind (getitem metadata "seasons")
                   (find_episode (episodeid videoid))) (fun episode =>
  res_bind (getitem episode "title") (fun title =>
  res_bind (getitem season "seq") (fun season_seq =>
  res_bind (getitem episode "seq") (fun episode_seq =>
  res_bind (format_02d season_seq) (fun s =>
  res_bind (format_02d episode_seq) (fun e =>
  let filename := "S" ++ s ++ "E" ++ e in
  res_bind (as_str showname) (fun showname =>
  res_bind (as_str title) (fun title =>
  let title := showname ++ " - " ++ filename ++ " - " ++ title in
  Ok (_create_item_task title FOLDER_TV videoid showname filename))))))))))).

(** A list comprehension whose body can raise: the first exception ends
    it. *)
Fixpoint comprehension {A B : Type} (body : A -> res B) (l : list A) : res (list B) :=
  match l with
  | [] => Ok []
  | x :: l' =>
      res_bind (body x) (fun y =>
      res_bind (comprehension body l') (fun ys => Ok (y :: ys)))
  end.

Definition _compile_season_tasks `{VideoIds} (videoid : VideoId) (metadata season : json)
  : res (list task) :=
  res_bind (getitem season "episodes") (fun episodes =>
  res_bind (py_iter episodes) (fun episodes =>
  comprehension
    (fun episode =>
       res_bind (getitem episode "id") (fun id =>
       res_bind (derive_episode videoid id) (fun episode_id =>
       _create_episode_task episode_id metadata season episode)))
    episodes)).

Definition _compile_show_tasks `{VideoIds} (videoid : VideoId) (metadata : json)
  : res (list task) :=
  res_bind (getitem metadata "seasons") (fun seasons =>
  res_bind (py_iter seasons) (fun seasons =>
  res_bind
    (comprehension
       (fun season =>
          res_bind (getitem season "id") (fun id =>
          res_bind (derive_season videoid id) (fun season_id =>
          _compile_season_tasks season_id metadata season)))
       seasons)
    (fun per_season => Ok (List.concat per_season)))).

(** The number of elements that an iteration over [v] goes through. *)
Definition iteration_length (v : res json) : nat :=
  match res_bind v py_iter with
  | Ok l => List.length l
  | Raise _ => 0%nat
  end.

(** Video ids as lists of strings, for a show, a season or an episode. *)
Definition list_ids : VideoIds := {|
  VideoId := list string;
  seasonid := fun v => match v with [_; s] | [_; s; _] => JStr s | _ => JNone end;
  episodeid := fun v => match v with [_; _; e] => JStr e | _ => JNone end;
  derive_season := fun v id =>
    match v, id with
    | [t], JStr s => Ok [t; s]
    | _, _ => Raise (OtherError "InvalidVideoId")
    end;
  derive_episode := fun v id =>
    match v, id with
    | [t; s], JStr e => Ok [t; s; e]
    | _, _ => Raise (OtherError "InvalidVideoId")
    end;
  find_season := fun _ _ => Raise (OtherError "KeyError");
  find_episode := fun _ _ => Raise (OtherError "KeyError")
|}.

Definition episode_json (id : string) (seq : Z) (t : string) : json :=
  JDict {[ "id" := JStr id; "seq" := JInt seq; "title" := JStr t ]}.

Definition season_json (id : string) (seq : Z) (episodes : list json) : json :=
  JDict {[ "id" := JStr id; "seq" := JInt seq; "episodes" := JList episodes ]}.

(** A show with two seasons, of two episodes and of one. *)
Definition example_show : json :=
  JDict {[ "title" := JStr "Dark";
           "seasons" := JList
             [ season_json "s1" 1 [episode_json "e1" 1 "Secrets"; episode_json "e2" 2 "Lies"];
               season_json "s2" 2 [episode_json "e3" 1 "Beginnings"] ] ]}.

(** The tasks of the episodes of [example_show]. *)
Definition example_tasks : list (@task list_ids) :=
  [ @mkTask list_ids "Dark - S01E01 - Secrets" "shows" ["80100172"; "s1"; "e1"] "Dark" "S01E01";
    @mkTask list_ids "Dark - S01E02 - Lies" "shows" ["80100172"; "s1"; "e2"] "Dark" "S01E02";
    @mkTask list_ids "Dark - S02E01 - Beginnings" "shows" ["80100172"; "s2"; "e3"] "Dark"
      "S02E01" ].

End Tasks.

(** * Properties *)

Ltac Zify.zify_post_hook ::= Z.to_euclidean_division_equations.

(** ** Base64 round trip *)
Section Base64_roundtrip.
Import Base64.

Lemma bytes_ind3 (P : bytes -> Prop) :
  P [] ->
  (forall a, P [a]) ->
  (forall a b, P [a; b]) ->
  (forall a b c l, P l -> P (a :: b :: c :: l)) ->
  forall l, P l.
Proof.
  intros H0 H1 H2 H3.
  assert (forall l, P l /\ (forall a, P (a :: l)) /\ (forall a b, P (a :: b :: l))) as H.
  { induction l as [|x l (IH0 & IH1 & IH2)].
    - auto.
    - repeat split; auto. }
  intros l. apply H.
Qed.

Lemma index_of_char_of (n : N) :
  (n < 64)%N -> index_of (char_of n) = Some n /\ Byte.eqb (char_of n) pad = false.
Proof.
  intros Hn.
  assert (alphabet_ok = true) as Hall by (vm_compute; reflexivity).
  unfold alphabet_ok in Hall. rewrite forallb_forall in Hall.
  assert (In (N.to_nat n) (List.seq 0 64)) as Hin by (apply in_seq; lia).
  apply Hall in Hin. rewrite N2Nat.id in Hin.
  apply andb_prop in Hin as [H1 H2].
  destruct (index_of (char_of n)) as [j|]; [|discriminate].
  apply N.eqb_eq in H1. subst j.
  split; [reflexivity|]. now apply negb_true_iff in H2.
Qed.

Lemma to_N_lt (a : byte) : (Byte.to_N a < 256)%N.
Proof. pose proof (Byte.to_N_bounded a). lia. Qed.

Lemma decode_full_encode3 (a b c : byte) :
  match encode3 a b c with
  | [c0; c1; c2; c3] =>
      decode_full c0 c1 c2 c3 = Some [a; b; c]
      /\ Byte.eqb c2 pad = false /\ Byte.eqb c3 pad = false
  | _ => False
  end.
Proof.
  unfold encode3, decode_full.
  pose proof (to_N_lt a) as Ha. pose proof (to_N_lt b) as Hb.
  pose proof (to_N_lt c) as Hc.
  set (x := Byte.to_N a) in *. set (y := Byte.to_N b) in *.
  set (z := Byte.to_N c) in *.
  destruct (index_of_char_of (x / 4)%N) as [-> _]; [lia|].
  destruct (index_of_char_of (x mod 4 * 16 + y / 16)%N) as [-> _]; [lia|].
  destruct (index_of_char_of (y mod 16 * 4 + z / 64)%N) as [-> E2]; [lia|].
  destruct (index_of_char_of (z mod 64)%N) as [-> E3]; [lia|].
  split; [|auto]. cbn [mbind option_bind].
  replace (x / 4 * 4 + (x mod 4 * 16 + y / 16) / 16)%N with x by lia.
  replace ((x mod 4 * 16 + y / 16) mod 16 * 16 + (y mod 16 * 4 + z / 64) / 4)%N
    with y by lia.
  replace ((y mod 16 * 4 + z / 64) mod 4 * 64 + z mod 64)%N with z by lia.
  subst x y z. now rewrite !Byte.of_to_N.
Qed.

Lemma decode_last_encode3 (a b c : byte) :
  decode_groups (encode3 a b c) = Some [a; b; c].
Proof.
  pose proof (decode_full_encode3 a b c) as H.
  destruct (encode3 a b c) as [|c0 [|c1 [|c2 [|c3 [|? ?]]]]]; try contradiction.
  destruct H as (H & E2 & E3).
  cbn [decode_groups]. unfold decode_last. now rewrite E3.
Qed.

Lemma decode_groups_more (c0 c1 c2 c3 r0 : byte) (rest : bytes) :
  decode_groups (c0 :: c1 :: c2 :: c3 :: r0 :: rest) =
  q ← decode_full c0 c1 c2 c3; r ← decode_groups (r0 :: rest); Some (q ++ r)%list.
Proof. reflexivity. Qed.

Lemma decode_groups_encode3 (a b c : byte) (rest : bytes) :
  rest <> [] ->
  decode_groups ((encode3 a b c ++ rest)%list) =
  option_map (fun r => a :: b :: c :: r) (decode_groups rest).
Proof.
  intros Hrest.
  pose proof (decode_full_encode3 a b c) as H.
  destruct (encode3 a b c) as [|c0 [|c1 [|c2 [|c3 [|? ?]]]]]; try contradiction.
  destruct H as (H & _).
  destruct rest as [|r0 rest]; [congruence|].
  change (([c0; c1; c2; c3] ++ r0 :: rest)%list) with (c0 :: c1 :: c2 :: c3 :: r0 :: rest).
  rewrite decode_groups_more, H. cbn [mbind option_bind].
  now destruct (decode_groups (r0 :: rest)).
Qed.

Lemma decode_groups_encode2 (a b : byte) :
  decode_groups (encode2 a b) = Some [a; b].
Proof.
  unfold encode2. cbn [decode_groups]. unfold decode_last.
  pose proof (to_N_lt a) as Ha. pose proof (to_N_lt b) as Hb.
  set (x := Byte.to_N a) in *. set (y := Byte.to_N b) in *.
  destruct (index_of_char_of (x / 4)%N) as [-> _]; [lia|].
  destruct (index_of_char_of (x mod 4 * 16 + y / 16)%N) as [-> _]; [lia|].
  destruct (index_of_char_of (y mod 16 * 4)%N) as [-> E2]; [lia|].
  rewrite E2. replace (Byte.eqb pad pad) with true by reflexivity.
  cbn [mbind option_bind].
  replace (x / 4 * 4 + (x mod 4 * 16 + y / 16) / 16)%N with x by lia.
  replace ((x mod 4 * 16 + y / 16) mod 16 * 16 + (y mod 16 * 4) / 4)%N
    with y by lia.
  subst x y. now rewrite !Byte.of_to_N.
Qed.

Lemma decode_groups_encode1 (a : byte) :
  decode_groups (encode1 a) = Some [a].
Proof.
  unfold encode1. cbn [decode_groups]. unfold decode_last.
  pose proof (to_N_lt a) as Ha.
  set (x := Byte.to_N a) in *.
  destruct (index_of_char_of (x / 4)%N) as [-> _]; [lia|].
  destruct (index_of_char_of (x mod 4 * 16)%N) as [-> _]; [lia|].
  replace (Byte.eqb pad pad) with true by reflexivity.
  cbn [mbind option_bind].
  replace (x / 4 * 4 + (x mod 4 * 16) / 16)%N with x by lia.
  subst x. now rewrite !Byte.of_to_N.
Qed.

Lemma standard_b64encode_nonempty (a : byte) (l : bytes) :
  standard_b64encode (a :: l) <> [].
Proof. destruct l as [|b [|c l]]; discriminate. Qed.

Lemma decode_groups_standard_b64encode (l : bytes) :
  decode_groups (standard_b64encode l) = Some l.
Proof.
  induction l as [|a|a b|a b c l IH] using bytes_ind3.
  - reflexivity.
  - apply decode_groups_encode1.
  - apply decode_groups_encode2.
  - change (standard_b64encode (a :: b :: c :: l))
      with (encode3 a b c ++ standard_b64encode l)%list.
    destruct l as [|d l].
    + cbn [standard_b64encode]. rewrite app_nil_r. apply decode_last_encode3.
    + rewrite decode_groups_encode3 by apply standard_b64encode_nonempty.
      now rewrite IH.
Qed.

(** Decoding an encoding gives back the bytes. *)
Lemma standard_b64decode_encode (l : bytes) :
  standard_b64decode (standard_b64encode l) = Ok l.
Proof. unfold standard_b64decode. now rewrite decode_groups_standard_b64encode. Qed.
End Base64_roundtrip.

(** ** The monad and the facade *)
Section Facade.
Context `{Platform}.

Lemma make_call_backend (callname : string) (p : params) (data : value) (w : World) :
  _make_call callname p data w =
  (fst (backend callname p data (store w)),
   mkWorld _ (snd (backend callname p data (store w))) (app w)
     (active_profile_guid w) (trace w ++ [dispatch_event callname p data])%list).
Proof.
  unfold _make_call, backend, dispatch_event, call_management, call_http.
  destruct (IS_SERVICE g); cbn.
  - now destruct (CACHE_MANAGEMENT _ _ _).
  - now destruct (make_http_call_cache _ _ _ _).
Qed.

Lemma Cache_get_backend (b : bucket) (identifier : pyval) (w : World) :
  Cache.get b identifier w =
  (res_bind (fst (backend "get" (get_call_args b (py_str identifier)) (PVal VNone) (store w)))
     _deserialize_data,
   mkWorld _ (snd (backend "get" (get_call_args b (py_str identifier)) (PVal VNone) (store w)))
     (app w) (active_profile_guid w)
     (trace w ++ [dispatch_event "get" (get_call_args b (py_str identifier)) (PVal VNone)])%list).
Proof.
  unfold Cache.get, bind. fold (get_call_args b (py_str identifier)).
  rewrite make_call_backend.
  now destruct (fst (backend _ _ _ _)).
Qed.

Lemma Cache_add_backend (b : bucket) (identifier data ttl expires : pyval)
    (payload : bytes) (w : World) :
  _serialize_data data = Ok payload ->
  Cache.add b identifier data ttl expires w =
  let p := add_call_args b (py_str identifier) (PVal VNone) ttl expires in
  (res_bind (fst (backend "add" p (PBytes payload) (store w))) (fun _ => Ok tt),
   mkWorld _ (snd (backend "add" p (PBytes payload) (store w)))
     (app w) (active_profile_guid w)
     (trace w ++ [dispatch_event "add" p (PBytes payload)])%list).
Proof.
  intros Hser. unfold Cache.add, bind, lift.
  fold (add_call_args b (py_str identifier) (PVal VNone) ttl expires).
  rewrite Hser, make_call_backend. cbn zeta.
  now destruct (fst (backend _ _ _ _)).
Qed.

Lemma Cache_add_unserializable (b : bucket) (identifier data ttl expires : pyval)
    (e : exn) (w : World) :
  _serialize_data data = Raise e ->
  Cache.add b identifier data ttl expires w = (Raise e, w).
Proof. intros Hser. unfold Cache.add, bind, lift. now rewrite Hser. Qed.

End Facade.

(** ** The serialization codec *)
Section Codec.
Context `{Platform}.

Lemma codec_roundtrip (v : pyval) (d : bytes) :
  pickle_dumps v = Ok d ->
  pickle_loads d = Ok v ->
  _serialize_data v =
    Ok (if PY_IS_VER2 g then Base64.standard_b64encode d else d)
  /\ _deserialize_data
       (PBytes (if PY_IS_VER2 g then Base64.standard_b64encode d else d)) = Ok v.
Proof.
  intros Hd Hl. unfold _serialize_data, _deserialize_data.
  destruct (PY_IS_VER2 g); rewrite Hd; cbn.
  - now rewrite standard_b64decode_encode.
  - auto.
Qed.

(** C8: the codec is a lossless round trip.  For every value [v] that
    pickle serializes (to [d]) and reads back, [_deserialize_data] applied
    to [_serialize_data v] returns a value equal to [v], both on the
    Python 2 path (the pickle wrapped in standard base64) and on the
    Python 3 path (the raw pickle bytes). *)
Theorem serialize_deserialize_roundtrip (v : pyval) (d : bytes) :
  pickle_dumps v = Ok d ->
  pickle_loads d = Ok v ->
  exists payload : bytes,
    _serialize_data v = Ok payload
    /\ payload = (if PY_IS_VER2 g then Base64.standard_b64encode d else d)
    /\ _deserialize_data (PBytes payload) = Ok v.
Proof.
  intros Hd Hl. destruct (codec_roundtrip v d Hd Hl) as [Hs Hr].
  eexists. split; [exact Hs|]. split; [reflexivity|exact Hr].
Qed.

End Codec.

Lemma serialize_deserialize_roundtrip_witness :
  (exists payload : bytes,
     @_serialize_data (Reference.platform true true 86400) (VStr "show1") = Ok payload
     /\ payload = Base64.standard_b64encode (list_byte_of_string "Xshow1")
     /\ @_deserialize_data (Reference.platform true true 86400) (PBytes payload)
        = Ok (VStr "show1"))
  /\ (exists payload : bytes,
     @_serialize_data (Reference.platform true false 86400) (VStr "show1") = Ok payload
     /\ payload = list_byte_of_string "Xshow1"
     /\ @_deserialize_data (Reference.platform true false 86400) (PBytes payload)
        = Ok (VStr "show1")).
Proof.
  split.
  - apply (@serialize_deserialize_roundtrip (Reference.platform true true 86400)
             (VStr "show1") (list_byte_of_string "Xshow1")); reflexivity.
  - apply (@serialize_deserialize_roundtrip (Reference.platform true false 86400)
             (VStr "show1") (list_byte_of_string "Xshow1")); reflexivity.
Defined.

(** ** Identifier derivation *)
Section Identifier.
Context `{Platform}.

Lemma generate_identifier_eq (partial_identifier : string) (w : World) :
  generate_identifier partial_identifier w =
  (Ok (active_profile_guid w ++ "_" ++ partial_identifier), w).
Proof. reflexivity. Qed.

(** Case analysis along the branches of [_get_identifier]. *)
Ltac derivation_cases :=
  unfold _get_identifier, bind, ret, lift, generate_identifier;
  repeat (cbn beta iota zeta;
          match goal with
          | |- context [if truthy ?x then _ else _] => destruct (truthy x) eqn:?
          | |- context [if ?a && ?b then _ else _] => destruct (a && b) eqn:?
          | |- context [match py_index ?t ?i with _ => _ end] =>
              destruct (py_index t i) eqn:?
          | |- context [match py_add ?x ?y with _ => _ end] =>
              destruct (py_add x y) eqn:?
          end);
  cbn beta iota zeta.

(** The derivation reads the state but does not change it. *)
Lemma get_identifier_state fixed name appname idx args kwargs (w : World) :
  snd (_get_identifier fixed name appname idx args kwargs w) = w.
Proof. derivation_cases; reflexivity. Qed.

(** It only depends on the active profile. *)
Lemma get_identifier_profile fixed name appname idx args kwargs (w w' : World) :
  active_profile_guid w' = active_profile_guid w ->
  fst (_get_identifier fixed name appname idx args kwargs w')
  = fst (_get_identifier fixed name appname idx args kwargs w).
Proof. intros Hg. derivation_cases; cbn; now rewrite ?Hg. Qed.

Lemma py_index_error (t : list pyval) (i : Z) (e : exn) :
  py_index t i = Raise e -> e = IndexError.
Proof.
  unfold py_index. destruct (_ && _); [|congruence].
  destruct (nth_error _ _); congruence.
Qed.

Lemma py_add_error (x y : pyval) (e : exn) :
  py_add x y = Raise e -> e = TypeError.
Proof. destruct x, y; cbn; congruence. Qed.

(** Its failures are [IndexError] and [TypeError]; its identifiers carry
    the profile prefix. *)
Lemma get_identifier_result fixed name appname idx args kwargs (w : World) :
  match fst (_get_identifier fixed name appname idx args kwargs w) with
  | Ok (_, ident) =>
      exists partial_identifier, ident = active_profile_guid w ++ "_" ++ partial_identifier
  | Raise e => e = IndexError \/ e = TypeError
  end.
Proof.
  derivation_cases; cbn; eauto using py_index_error, py_add_error.
Qed.

Lemma get_identifier_Ok fixed name appname idx args kwargs (w w' : World) arg ident :
  _get_identifier fixed name appname idx args kwargs w = (Ok (arg, ident), w') ->
  w' = w
  /\ (exists partial_identifier,
        ident = active_profile_guid w ++ "_" ++ partial_identifier)
  /\ truthy (VStr ident) = true.
Proof.
  intros E.
  pose proof (get_identifier_state fixed name appname idx args kwargs w) as Hs.
  pose proof (get_identifier_result fixed name appname idx args kwargs w) as Hr.
  rewrite E in Hs, Hr. cbn in Hs, Hr. destruct Hr as [p ->].
  split; [auto|]. split; [eauto|].
  cbn. destruct (active_profile_guid w); reflexivity.
Qed.

End Identifier.

Section Precedence.
Context `{Platform}.

Lemma truthy_VStr (s : string) : truthy (VStr s) = true <-> s <> "".
Proof.
  cbn. rewrite negb_true_iff. split.
  - intros E ->. now rewrite String.eqb_refl in E.
  - intros Hs. now apply String.eqb_neq.
Qed.

Lemma name_truthy_Some (a : string) : a <> "" -> name_truthy (Some a) = true.
Proof. intros Ha. cbn. apply negb_true_iff. now apply String.eqb_neq. Qed.

(** C3 (amended): precedence of the partial identifier.  A truthy
    [fixed_identifier] is used verbatim, whatever the other derivation
    inputs are.  Otherwise the base is the value of the kwarg named
    [identify_from_kwarg_name] when it is truthy, else the positional
    argument at [identify_fallback_arg_index] when there are positional
    arguments, else the (absent or falsy) kwarg value itself.  The value
    of the secondary kwarg is appended, joined with an underscore, exactly
    when the base is truthy, a secondary name is configured and its value
    in the call is truthy (both being strings); otherwise the partial
    identifier is [str] of the base.  The result carries the profile
    prefix. *)
Theorem identifier_precedence
    (fixed : pyval) (name : string) (appname : option string) (idx : Z)
    (args : list pyval) (kwargs : gmap string pyval) (w : World) :
  (truthy fixed = true ->
     _get_identifier fixed name appname idx args kwargs w
     = (Ok (VNone, active_profile_guid w ++ "_" ++ py_str fixed), w))
  /\
  (truthy fixed = false ->
   forall base arg_value : pyval,
     (truthy (kwargs_get kwargs name) = true
        /\ base = kwargs_get kwargs name /\ arg_value = VNone)
     \/ (truthy (kwargs_get kwargs name) = false /\ args <> []
        /\ py_index args idx = Ok base /\ arg_value = base)
     \/ (truthy (kwargs_get kwargs name) = false /\ args = []
        /\ base = kwargs_get kwargs name /\ arg_value = VNone) ->
     (forall a b s : string,
        appname = Some a -> a <> "" ->
        base = VStr b -> b <> "" ->
        kwargs_get kwargs a = VStr s -> s <> "" ->
        _get_identifier fixed name appname idx args kwargs w
        = (Ok (arg_value, active_profile_guid w ++ "_" ++ (b ++ "_" ++ s)), w))
     /\
     (truthy base && name_truthy appname
        && truthy (kwargs_get_opt kwargs appname) = false ->
        _get_identifier fixed name appname idx args kwargs w
        = (Ok (arg_value, active_profile_guid w ++ "_" ++ py_str base), w))).
Proof.
  split.
  - intros Hf. unfold _get_identifier. rewrite Hf. reflexivity.
  - intros Hf base arg_value Hbase.
    assert (_get_identifier fixed name appname idx args kwargs w =
            ((if truthy base && name_truthy appname
                 && truthy (kwargs_get_opt kwargs appname)
              then
                res_bind (py_add (VStr "_") (kwargs_get_opt kwargs appname))
                  (fun sfx =>
                     res_bind (py_add base sfx)
                       (fun i => Ok (arg_value,
                                     active_profile_guid w ++ "_" ++ py_str i)))
              else Ok (arg_value, active_profile_guid w ++ "_" ++ py_str base)), w))
      as E.
    { unfold _get_identifier, bind, ret, lift, generate_identifier. rewrite Hf.
      destruct Hbase as [(Hk & -> & ->)|[(Hk & Ha & Hi & ->)|(Hk & -> & -> & ->)]];
        rewrite ?Hk; cbn [negb andb List.length Nat.eqb].
      2: (destruct args as [|x args];
          [congruence|cbn [List.length Nat.eqb negb]; rewrite Hi]).
      all: unfold res_bind; cbn beta iota zeta; rewrite ?Hk;
        repeat (cbn [andb negb];
                   match goal with
                   | |- context [if ?b then _ else _] => destruct b
                   | |- context [match py_add ?x ?y with _ => _ end] =>
                       destruct (py_add x y)
                   end);
        reflexivity. }
    split.
    + intros a b s -> Ha -> Hb Hs Hs'. rewrite E.
      cbn [kwargs_get_opt]. rewrite Hs.
      rewrite (proj2 (truthy_VStr b) Hb), (proj2 (truthy_VStr s) Hs'),
        (name_truthy_Some a Ha).
      cbn. reflexivity.
    + intros Hno. rewrite E, Hno. reflexivity.
Qed.

End Precedence.

Lemma identifier_precedence_witness :
  @_get_identifier Reference.service_py3 (VStr "my_list_items") "videoid" (Some "season") 1
     [VStr "x"] {[ "videoid" := VStr "show1" ]} (Reference.service_world "PROFILE1")
  = (Ok (VNone, "PROFILE1_my_list_items"), Reference.service_world "PROFILE1")
  /\ @_get_identifier Reference.service_py3 VNone "videoid" (Some "season") 0
     [] {[ "videoid" := VStr "show1"; "season" := VStr "2" ]}
     (Reference.service_world "PROFILE1")
  = (Ok (VNone, "PROFILE1_show1_2"), Reference.service_world "PROFILE1")
  /\ @_get_identifier Reference.service_py3 VNone "videoid" None 0
     [VStr "show7"] ∅ (Reference.service_world "PROFILE1")
  = (Ok (VStr "show7", "PROFILE1_show7"), Reference.service_world "PROFILE1").
Proof.
  split; [|split].
  - apply (proj1 (@identifier_precedence Reference.service_py3
                    (VStr "my_list_items") "videoid" (Some "season") 1
                    [VStr "x"] {[ "videoid" := VStr "show1" ]}
                    (Reference.service_world "PROFILE1"))).
    reflexivity.
  - destruct (@identifier_precedence Reference.service_py3
                VNone "videoid" (Some "season") 0
                [] {[ "videoid" := VStr "show1"; "season" := VStr "2" ]}
                (Reference.service_world "PROFILE1")) as [_ Hrule].
    destruct (Hrule eq_refl (VStr "show1") VNone) as [Happend _].
    { left. repeat split; reflexivity. }
    apply (Happend "season" "show1" "2"); (reflexivity || discriminate).
  - destruct (@identifier_precedence Reference.service_py3
                VNone "videoid" None 0 [VStr "show7"] ∅
                (Reference.service_world "PROFILE1")) as [_ Hrule].
    destruct (Hrule eq_refl (VStr "show7") (VStr "show7")) as [_ Hplain].
    { right. left. repeat split; (reflexivity || discriminate). }
    apply Hplain. reflexivity.
Defined.

(** C3, as stated, fails: a secondary kwarg that is configured and present
    in the call with an empty value is not appended. *)
Lemma secondary_kwarg_present_but_empty :
  let kwargs : gmap string pyval :=
    {[ "videoid" := VStr "show1"; "season" := VStr "" ]} in
  ~ (forall v : pyval,
       kwargs !! "season" = Some v ->
       fst (@_get_identifier Reference.service_py3 VNone "videoid" (Some "season") 0
              [] kwargs (Reference.service_world "PROFILE1"))
       = Ok (VNone, "PROFILE1" ++ "_" ++ ("show1" ++ "_" ++ py_str v))).
Proof.
  intros kwargs Hclaim.
  specialize (Hclaim (VStr "") eq_refl).
  vm_compute in Hclaim. discriminate Hclaim.
Qed.

(** ** The positional fallback *)
Section Fallback.
Context `{Platform}.

Lemma py_index_in_bounds (t : list pyval) (i : Z) :
  - Z.of_nat (List.length t) <= i < Z.of_nat (List.length t) ->
  exists a,
    py_index t i = Ok a
    /\ nth_error t
         (Z.to_nat (if i <? 0 then Z.of_nat (List.length t) + i else i)) = Some a.
Proof.
  intros Hi. unfold py_index.
  set (j := if i <? 0 then Z.of_nat (List.length t) + i else i).
  assert (0 <= j < Z.of_nat (List.length t)) as Hj.
  { subst j. destruct (Z.ltb_spec i 0); lia. }
  replace ((0 <=? j) && (j <? Z.of_nat (List.length t))) with true
    by (symmetry; apply andb_true_iff; split; [apply Z.leb_le|apply Z.ltb_lt]; lia).
  destruct (nth_error t (Z.to_nat j)) as [a|] eqn:E; [eauto|].
  apply nth_error_None in E. lia.
Qed.

Lemma py_index_out_of_bounds (t : list pyval) (i : Z) :
  i < - Z.of_nat (List.length t) \/ Z.of_nat (List.length t) <= i ->
  py_index t i = Raise IndexError.
Proof.
  intros Hi. unfold py_index.
  set (j := if i <? 0 then Z.of_nat (List.length t) + i else i).
  assert (j < 0 \/ Z.of_nat (List.length t) <= j) as Hj.
  { subst j. destruct (Z.ltb_spec i 0); lia. }
  replace ((0 <=? j) && (j <? Z.of_nat (List.length t))) with false; [reflexivity|].
  symmetry. apply andb_false_iff.
  destruct Hj; [left; apply Z.leb_gt|right; apply Z.ltb_ge]; lia.
Qed.

(** C10 (amended): when the [identify_from] kwarg is absent or falsy and
    the positional arguments are not empty, the wrapper indexes
    [args[identify_fallback_arg_index]] with no bounds check of its own.
    Under the precondition
    [-len(args) <= identify_fallback_arg_index < len(args)] the access is
    in bounds (a negative index counting from the end), it yields the
    argument that becomes [arg_value], and the derivation does not raise
    [IndexError]; outside of this range the derivation raises
    [IndexError]. *)
Theorem positional_fallback_bounds
    (fixed : pyval) (name : string) (appname : option string) (idx : Z)
    (args : list pyval) (kwargs : gmap string pyval) (w : World) :
  truthy fixed = false ->
  truthy (kwargs_get kwargs name) = false ->
  args <> [] ->
  (- Z.of_nat (List.length args) <= idx < Z.of_nat (List.length args) ->
   exists a,
     py_index args idx = Ok a
     /\ nth_error args
          (Z.to_nat (if idx <? 0 then Z.of_nat (List.length args) + idx else idx))
        = Some a
     /\ fst (_get_identifier fixed name appname idx args kwargs w) <> Raise IndexError
     /\ (forall r, fst (_get_identifier fixed name appname idx args kwargs w) = Ok r ->
                   fst r = a))
  /\
  (idx < - Z.of_nat (List.length args) \/ Z.of_nat (List.length args) <= idx ->
   _get_identifier fixed name appname idx args kwargs w = (Raise IndexError, w)).
Proof.
  intros Hf Hk Ha.
  assert (negb (Nat.eqb (List.length args) 0) = true) as Hlen
    by (destruct args; [congruence|reflexivity]).
  split.
  - intros Hi. destruct (py_index_in_bounds args idx Hi) as (a & Hidx & Hnth).
    exists a. split; [exact Hidx|]. split; [exact Hnth|].
    unfold _get_identifier, bind, ret, lift, generate_identifier.
    rewrite Hf, Hk, Hlen, Hidx. cbn [negb andb].
    destruct (truthy a && name_truthy appname && truthy (kwargs_get_opt kwargs appname)).
    + destruct (py_add (VStr "_") (kwargs_get_opt kwargs appname)) as [sfx|e] eqn:E1.
      * destruct (py_add a sfx) as [i|e] eqn:E2; cbn.
        -- split; [discriminate|]. intros r [= <-]. reflexivity.
        -- apply py_add_error in E2 as ->. split; [discriminate|]. discriminate.
      * apply py_add_error in E1 as ->. cbn. split; discriminate.
    + cbn. split; [discriminate|]. intros r [= <-]. reflexivity.
  - intros Hi. unfold _get_identifier, bind, ret, lift.
    rewrite Hf, Hk, Hlen, (py_index_out_of_bounds args idx Hi). reflexivity.
Qed.

End Fallback.

Lemma positional_fallback_bounds_witness :
  (exists a,
     py_index [VStr "ctx"; VStr "show9"] (-1) = Ok a
     /\ nth_error [VStr "ctx"; VStr "show9"] 1 = Some a
     /\ fst (@_get_identifier Reference.service_py3 VNone "videoid" None (-1)
               [VStr "ctx"; VStr "show9"] ∅ (Reference.service_world "PROFILE1"))
        <> Raise IndexError
     /\ (forall r,
           fst (@_get_identifier Reference.service_py3 VNone "videoid" None (-1)
                  [VStr "ctx"; VStr "show9"] ∅ (Reference.service_world "PROFILE1"))
           = Ok r -> fst r = a))
  /\ @_get_identifier Reference.service_py3 VNone "videoid" None 2
       [VStr "ctx"; VStr "show9"] ∅ (Reference.service_world "PROFILE1")
     = (Raise IndexError, Reference.service_world "PROFILE1").
Proof.
  destruct (@positional_fallback_bounds Reference.service_py3 VNone "videoid" None (-1)
              [VStr "ctx"; VStr "show9"] ∅ (Reference.service_world "PROFILE1"))
    as [Hin _]; [reflexivity|reflexivity|discriminate|].
  destruct (@positional_fallback_bounds Reference.service_py3 VNone "videoid" None 2
              [VStr "ctx"; VStr "show9"] ∅ (Reference.service_world "PROFILE1"))
    as [_ Hout]; [reflexivity|reflexivity|discriminate|].
  split.
  - apply Hin. cbn. lia.
  - apply Hout. cbn. lia.
Defined.

(** C10, as stated, fails: an index below [len(args)] is not enough, a
    negative index below [-len(args)] raises [IndexError]. *)
Lemma fallback_index_below_minus_len :
  ~ (-2 < Z.of_nat (List.length [VStr "show1"]) ->
     exists r,
       fst (@_get_identifier Reference.service_py3 VNone "videoid" None (-2)
              [VStr "show1"] ∅ (Reference.service_world "PROFILE1")) = Ok r).
Proof.
  intros Hclaim. destruct Hclaim as [r Hr]; [cbn; lia|].
  vm_compute in Hr. discriminate Hr.
Qed.

(** ** Profile scoping *)

Lemma list_ascii_of_string_app (a b : string) :
  list_ascii_of_string (a ++ b) = (list_ascii_of_string a ++ list_ascii_of_string b)%list.
Proof. induction a as [|c a IH]; simpl; [reflexivity|now f_equal]. Qed.

Lemma string_app_inv_tail (a b s : string) : a ++ s = b ++ s -> a = b.
Proof.
  intros E. apply (f_equal list_ascii_of_string) in E.
  rewrite !list_ascii_of_string_app in E. apply app_inv_tail in E.
  rewrite <- (string_of_list_ascii_of_string a), <- (string_of_list_ascii_of_string b).
  now rewrite E.
Qed.

(** The same partial identifier under two profiles gives two identifiers. *)
Lemma profile_identifiers_differ (guidA guidB partial_identifier : string) :
  guidA <> guidB ->
  guidA ++ "_" ++ partial_identifier <> guidB ++ "_" ++ partial_identifier.
Proof. intros Hne E. apply Hne. eapply string_app_inv_tail. exact E. Qed.

(** When the guids contain no underscore, identifiers of two profiles
    never coincide, whatever the partial identifiers; with an underscore
    in a guid they can. *)
Lemma profiles_never_share_identifiers (guidA guidB pA pB : string) :
  underscore_free guidA = true ->
  underscore_free guidB = true ->
  guidA <> guidB ->
  guidA ++ "_" ++ pA <> guidB ++ "_" ++ pB.
Proof.
  revert guidB. induction guidA as [|a A IH]; intros [|c B] HA HB Hne E;
    simpl in *.
  - congruence.
  - injection E as <- _. discriminate HB.
  - injection E as -> _. discriminate HA.
  - injection E as -> E.
    apply andb_prop in HA as [_ HA]. apply andb_prop in HB as [_ HB].
    apply (IH B HA HB); congruence.
Qed.

Example underscore_in_guid_collides :
  "P" ++ "_" ++ "1_x" = "P_1" ++ "_" ++ "x".
Proof. reflexivity. Qed.

Section Profiles.
Context `{Platform}.

Lemma Cache_add_store (b : bucket) (identifier data ttl expires : pyval) (w : World) :
  store (snd (Cache.add b identifier data ttl expires w)) = store w
  \/ exists payload,
       store (snd (Cache.add b identifier data ttl expires w))
       = snd (backend "add"
                (add_call_args b (py_str identifier) (PVal VNone) ttl expires)
                (PBytes payload) (store w)).
Proof.
  destruct (_serialize_data data) as [payload|e] eqn:E.
  - right. exists payload. now rewrite (Cache_add_backend _ _ _ _ _ payload).
  - left. now rewrite (Cache_add_unserializable _ _ _ _ _ e).
Qed.

(** C4: every identifier produced for a cache operation is the active
    profile's guid, an underscore, and the derived partial identifier
    (also for a fixed identifier); hence the same partial identifier
    under two different active profiles gives two different identifiers,
    and, the backend keeping one entry per identifier, a write made while
    profile A is active does not change what a get made while profile B
    is active answers. *)
Theorem profile_scoped_identifiers :
  (forall (p : string) (w : World),
     generate_identifier p w = (Ok (active_profile_guid w ++ "_" ++ p), w))
  /\
  (forall fixed name appname idx args kwargs (w w' : World) arg ident,
     _get_identifier fixed name appname idx args kwargs w = (Ok (arg, ident), w') ->
     (exists p, ident = active_profile_guid w ++ "_" ++ p)
     /\ (truthy fixed = true ->
         ident = active_profile_guid w ++ "_" ++ py_str fixed))
  /\
  (forall guidA guidB p : string,
     guidA <> guidB -> guidA ++ "_" ++ p <> guidB ++ "_" ++ p)
  /\
  (keyed_by_identifier ->
   forall (guidA guidB p : string) (b : bucket) (data ttl expires : pyval)
          (w : World) (identA identB : string),
     guidA <> guidB ->
     fst (generate_identifier p (switch_profile guidA w)) = Ok identA ->
     fst (generate_identifier p (switch_profile guidB w)) = Ok identB ->
     fst (Cache.get b (VStr identB)
            (switch_profile guidB
               (snd (Cache.add b (VStr identA) data ttl expires
                       (switch_profile guidA w)))))
     = fst (Cache.get b (VStr identB) (switch_profile guidB w))).
Proof.
  split; [reflexivity|]. split; [|split].
  - intros fixed name appname idx args kwargs w w' arg ident E.
    split.
    + now apply get_identifier_Ok in E as (_ & Hp & _).
    + intros Hf. unfold _get_identifier in E. rewrite Hf in E.
      cbv [bind ret generate_identifier] in E. now injection E as _ <- _.
  - exact profile_identifiers_differ.
  - intros Hkeyed guidA guidB p b data ttl expires w identA identB Hne HA HB.
    cbn in HA, HB. injection HA as <-. injection HB as <-.
    rewrite !Cache_get_backend. cbn [fst switch_profile store py_str].
    destruct (Cache_add_store b (VStr (guidA ++ "_" ++ p)) data ttl expires
                (switch_profile guidA w)) as [-> | [payload ->]];
      [reflexivity|].
    cbn [py_str switch_profile store].
    rewrite Hkeyed; [reflexivity|].
    now apply profile_identifiers_differ.
Qed.

End Profiles.

(** ** The reference platform keeps one entry per identifier *)
Section ReferenceStore.
Import Reference.

Lemma get_call_args_lookup (b : bucket) (i : string) :
  get_call_args b i !! "bucket" = Some (PBucket b)
  /\ get_call_args b i !! "identifier" = Some (PVal (VStr i))
  /\ get_call_args b i !! "data" = None.
Proof. repeat split; reflexivity. Qed.

Lemma add_call_args_lookup (b : bucket) (i : string) (d : value) (ttl expires : pyval) :
  add_call_args b i d ttl expires !! "bucket" = Some (PBucket b)
  /\ add_call_args b i d ttl expires !! "identifier" = Some (PVal (VStr i))
  /\ add_call_args b i d ttl expires !! "data" = Some d
  /\ add_call_args b i d ttl expires !! "ttl" = Some (PVal ttl)
  /\ add_call_args b i d ttl expires !! "expires" = Some (PVal expires).
Proof. repeat split; reflexivity. Qed.

Lemma add_call_args_inject (b : bucket) (i : string) (d d' : value) (ttl expires : pyval) :
  <["data" := d']> (add_call_args b i d ttl expires) = add_call_args b i d' ttl expires.
Proof. reflexivity. Qed.

Lemma reference_backend_get (is_service py2 : bool) (cache_ttl : Z)
    (b : bucket) (i : string) (s : cache_store) :
  @backend (platform is_service py2 cache_ttl) "get" (get_call_args b i) (PVal VNone) s
  = store_get (get_call_args b i) s.
Proof. destruct is_service; reflexivity. Qed.

Lemma reference_backend_add (is_service py2 : bool) (cache_ttl : Z)
    (b : bucket) (i : string) (d : bytes) (ttl expires : pyval) (s : cache_store) :
  @backend (platform is_service py2 cache_ttl) "add"
     (add_call_args b i (PVal VNone) ttl expires) (PBytes d) s
  = store_add (add_call_args b i (PBytes d) ttl expires) s.
Proof. destruct is_service; reflexivity. Qed.

Lemma store_get_lookup (b : bucket) (i : string) (s : cache_store) :
  fst (store_get (get_call_args b i) s) =
  if bool_decide (name b ∈ BUCKET_NAMES) then
    match memory s !! (name b, i) with
    | Some e => if expires_at e <? now s then Raise CacheMiss
                else Ok (PBytes (payload e))
    | None => Raise CacheMiss
    end
  else Raise (OtherError "UnknownBucket").
Proof.
  unfold store_get, get_bucket, get_identifier.
  destruct (get_call_args_lookup b i) as (-> & -> & _).
  destruct (bool_decide (name b ∈ BUCKET_NAMES)); [|reflexivity].
  destruct (memory s !! (name b, i)) as [e|]; [|reflexivity].
  now destruct (expires_at e <? now s).
Qed.

Lemma store_add_memory (b : bucket) (i : string) (d : bytes) (ttl expires : pyval)
    (s : cache_store) :
  snd (store_add (add_call_args b i (PBytes d) ttl expires) s) =
  if bool_decide (name b ∈ BUCKET_NAMES) then
    mkStore (now s)
      (<[(name b, i) :=
           mkEntry d (effective_expires b (add_call_args b i (PBytes d) ttl expires)
                        (now s))]> (memory s))
  else s.
Proof.
  unfold store_add, get_bucket, get_identifier.
  destruct (add_call_args_lookup b i (PBytes d) ttl expires) as (-> & -> & -> & _).
  now destruct (bool_decide (name b ∈ BUCKET_NAMES)).
Qed.

Lemma reference_keyed_by_identifier (is_service py2 : bool) (cache_ttl : Z) :
  @keyed_by_identifier (platform is_service py2 cache_ttl).
Proof.
  intros b1 b2 i1 i2 d ttl expires s Hne.
  rewrite reference_backend_add, !reference_backend_get, !store_get_lookup.
  rewrite store_add_memory.
  destruct (bool_decide (name b1 ∈ BUCKET_NAMES)); [|reflexivity].
  cbn [memory now].
  rewrite lookup_insert_ne by congruence. reflexivity.
Qed.

(** Miss-then-hit and expiry on the reference store: an entry whose
    effective expiry is not in the past is served right after its [add],
    an entry added as already expired is a miss. *)
Lemma reference_serves_after_add (is_service py2 : bool) (cache_ttl : Z)
    (b : bucket) (i : string) (d : bytes) (ttl expires : pyval) (s : cache_store) :
  name b ∈ BUCKET_NAMES ->
  fst (@backend (platform is_service py2 cache_ttl) "get" (get_call_args b i) (PVal VNone)
         (snd (@backend (platform is_service py2 cache_ttl) "add"
                 (add_call_args b i (PVal VNone) ttl expires) (PBytes d) s)))
  = if effective_expires b (add_call_args b i (PBytes d) ttl expires) (now s) <? now s
    then Raise CacheMiss
    else Ok (PBytes d).
Proof.
  intros Hb.
  rewrite reference_backend_add, reference_backend_get, store_get_lookup.
  rewrite store_add_memory.
  rewrite (bool_decide_eq_true_2 _ Hb). cbn [memory now].
  rewrite lookup_insert_eq. cbn [expires_at payload]. reflexivity.
Qed.

End ReferenceStore.

Lemma profile_scoped_identifiers_witness :
  "PROFILE1" ++ "_" ++ "show1" <> "PROFILE2" ++ "_" ++ "show1"
  /\ fst (@Cache.get Reference.service_py3 (CACHE_COMMON (@g Reference.service_py3))
            (VStr "PROFILE2_show1")
            (switch_profile "PROFILE2"
               (snd (@Cache.add Reference.service_py3
                       (CACHE_COMMON (@g Reference.service_py3))
                       (VStr "PROFILE1_show1") (VStr "episodes") VNone VNone
                       (switch_profile "PROFILE1" (Reference.service_world "PROFILE0"))))))
     = fst (@Cache.get Reference.service_py3 (CACHE_COMMON (@g Reference.service_py3))
              (VStr "PROFILE2_show1")
              (switch_profile "PROFILE2" (Reference.service_world "PROFILE0"))).
Proof.
  destruct (@profile_scoped_identifiers Reference.service_py3)
    as (_ & _ & Hdiffer & Hisolated).
  split.
  - apply Hdiffer. discriminate.
  - apply (Hisolated (reference_keyed_by_identifier true false 86400)
             "PROFILE1" "PROFILE2" "show1");
      [discriminate|reflexivity|reflexivity].
Defined.

(** ** The memoization wrapper *)
Section Wrapper.
Context `{Platform}.

Variables (b : bucket) (fixed : pyval) (name : string) (appname : option string)
          (idx : Z) (ttl : pyval) (func : pyfun).

Lemma call_eq (args : list pyval) (kwargs : gmap string pyval) (w : World) :
  call func args kwargs w =
  (fst (func args kwargs (app w)),
   mkWorld _ (store w) (snd (func args kwargs (app w))) (active_profile_guid w)
     (trace w ++ [EvFunc args kwargs])%list).
Proof. unfold call. cbn. now destruct (func args kwargs (app w)). Qed.

(** With a derived identifier the wrapper is a guarded lookup. *)
Lemma wrapper_lookup args kwargs (w w' : World) arg ident :
  _get_identifier fixed name appname idx args kwargs w = (Ok (arg, ident), w') ->
  cache_output b fixed name appname idx ttl func args kwargs w =
  try_except_CacheMiss
    (Cache.get b (VStr ident))
    (output <- call func args kwargs ;;
     _ <- Cache.add b (VStr ident) output (effective_ttl ttl arg) VNone ;;
     ret output)%py w.
Proof.
  intros E. unfold cache_output. rewrite E.
  apply get_identifier_Ok in E as (-> & _ & ->). reflexivity.
Qed.

(** Anything but [CacheMiss] from the lookup is the wrapper's outcome. *)
Lemma wrapper_lookup_outcome args kwargs (w w' w2 : World) arg ident r :
  _get_identifier fixed name appname idx args kwargs w = (Ok (arg, ident), w') ->
  Cache.get b (VStr ident) w = (r, w2) ->
  r <> Raise CacheMiss ->
  cache_output b fixed name appname idx ttl func args kwargs w = (r, w2).
Proof.
  intros E Hget Hr. rewrite (wrapper_lookup _ _ _ _ _ _ E).
  unfold try_except_CacheMiss. rewrite Hget.
  destruct r as [v|[]]; congruence.
Qed.

(** On a miss the function runs and its output is added. *)
Lemma wrapper_miss args kwargs (w w' : World) arg ident out payload :
  _get_identifier fixed name appname idx args kwargs w = (Ok (arg, ident), w') ->
  fst (backend "get" (get_call_args b ident) (PVal VNone) (store w)) = Raise CacheMiss ->
  fst (func args kwargs (app w)) = Ok out ->
  _serialize_data out = Ok payload ->
  cache_output b fixed name appname idx ttl func args kwargs w =
  (res_bind
     (fst (backend "add" (add_call_args b ident (PVal VNone) (effective_ttl ttl arg) VNone)
             (PBytes payload)
             (snd (backend "get" (get_call_args b ident) (PVal VNone) (store w)))))
     (fun _ => Ok out),
   mkWorld _
     (snd (backend "add" (add_call_args b ident (PVal VNone) (effective_ttl ttl arg) VNone)
             (PBytes payload)
             (snd (backend "get" (get_call_args b ident) (PVal VNone) (store w)))))
     (snd (func args kwargs (app w)))
     (active_profile_guid w)
     (trace w ++
      [dispatch_event "get" (get_call_args b ident) (PVal VNone);
       EvFunc args kwargs;
       dispatch_event "add"
         (add_call_args b ident (PVal VNone) (effective_ttl ttl arg) VNone)
         (PBytes payload)])%list).
Proof.
  intros E Hmiss Hout Hser. rewrite (wrapper_lookup _ _ _ _ _ _ E).
  unfold try_except_CacheMiss. rewrite Cache_get_backend. cbn [py_str].
  rewrite Hmiss. cbn [res_bind].
  unfold bind. rewrite call_eq.
  cbn [store app active_profile_guid trace]. rewrite Hout.
  rewrite (Cache_add_backend _ _ _ _ _ payload) by exact Hser.
  cbn [py_str store app active_profile_guid trace fst snd].
  rewrite <- !app_assoc. cbn [app].
  destruct (fst (backend "add" _ _ _)); reflexivity.
Qed.

End Wrapper.

Section Memoization.
Context `{Platform}.

Variables (b : bucket) (fixed : pyval) (name : string) (appname : option string)
          (idx : Z) (ttl : pyval) (func : pyfun).

(** C2: the lookup/compute protocol and its consequence.  For a call
    with a derivable identifier the wrapper first asks the facade for
    [(bucket, identifier)]; on [CacheMiss] it invokes the function with
    the original arguments, adds its result under the same bucket and
    identifier with the ttl override, and returns that result.
    Consequently a call with the same arguments made while the backend
    serves the stored entry returns a value equal to the first output
    without invoking the function; and a call whose identifier is
    different is not served by that entry: with a backend that keeps one
    entry per identifier, if it had no entry of its own it still misses,
    invokes the function with its own arguments and adds the result under
    its own identifier. *)
Theorem memoization_protocol
    (args : list pyval) (kwargs : gmap string pyval) (w : World)
    (arg : pyval) (ident : string) (out : pyval) (d : bytes) (reply : value) :
  let payload := if PY_IS_VER2 g then Base64.standard_b64encode d else d in
  let lookup := get_call_args b ident in
  let addition := add_call_args b ident (PVal VNone) (effective_ttl ttl arg) VNone in
  let s1 := snd (backend "get" lookup (PVal VNone) (store w)) in
  let w1 := snd (cache_output b fixed name appname idx ttl func args kwargs w) in
  _get_identifier fixed name appname idx args kwargs w = (Ok (arg, ident), w) ->
  fst (backend "get" lookup (PVal VNone) (store w)) = Raise CacheMiss ->
  fst (func args kwargs (app w)) = Ok out ->
  pickle_dumps out = Ok d ->
  pickle_loads d = Ok out ->
  fst (backend "add" addition (PBytes payload) s1) = Ok reply ->
  (fst (cache_output b fixed name appname idx ttl func args kwargs w) = Ok out
   /\ trace w1 =
      (trace w ++
       [dispatch_event "get" lookup (PVal VNone);
        EvFunc args kwargs;
        dispatch_event "add" addition (PBytes payload)])%list
   /\ store w1 = snd (backend "add" addition (PBytes payload) s1))
  /\
  (forall w2 : World,
     active_profile_guid w2 = active_profile_guid w ->
     fst (backend "get" lookup (PVal VNone) (store w2)) = Ok (PBytes payload) ->
     fst (cache_output b fixed name appname idx ttl func args kwargs w2) = Ok out
     /\ trace (snd (cache_output b fixed name appname idx ttl func args kwargs w2))
        = (trace w2 ++ [dispatch_event "get" lookup (PVal VNone)])%list
     /\ app (snd (cache_output b fixed name appname idx ttl func args kwargs w2))
        = app w2)
  /\
  (keyed_by_identifier ->
   forall (args' : list pyval) (kwargs' : gmap string pyval)
          (arg' : pyval) (ident' : string) (out' : pyval) (payload' : bytes),
     _get_identifier fixed name appname idx args' kwargs' w = (Ok (arg', ident'), w) ->
     ident' <> ident ->
     fst (backend "get" (get_call_args b ident') (PVal VNone) s1) = Raise CacheMiss ->
     fst (func args' kwargs' (app w1)) = Ok out' ->
     _serialize_data out' = Ok payload' ->
     let addition' :=
       add_call_args b ident' (PVal VNone) (effective_ttl ttl arg') VNone in
     fst (cache_output b fixed name appname idx ttl func args' kwargs' w1)
     = res_bind
         (fst (backend "add" addition' (PBytes payload')
                 (snd (backend "get" (get_call_args b ident') (PVal VNone) (store w1)))))
         (fun _ => Ok out')
     /\ trace (snd (cache_output b fixed name appname idx ttl func args' kwargs' w1))
        = (trace w1 ++
           [dispatch_event "get" (get_call_args b ident') (PVal VNone);
            EvFunc args' kwargs';
            dispatch_event "add" addition' (PBytes payload')])%list).
Proof.
  intros payload lookup addition s1 w1 E Hmiss Hout Hd Hl Hadd.
  destruct (codec_roundtrip out d Hd Hl) as [Hser Hdeser].
  fold payload in Hser, Hdeser.
  pose proof (wrapper_miss b fixed name appname idx ttl func args kwargs w w
                arg ident out payload E Hmiss Hout Hser) as Hfirst.
  fold lookup addition s1 in Hfirst.
  assert (store w1 = snd (backend "add" addition (PBytes payload) s1)) as Hstore
    by (subst w1; now rewrite Hfirst).
  assert (active_profile_guid w1 = active_profile_guid w) as Hguid
    by (subst w1; now rewrite Hfirst).
  split; [|split].
  - subst w1. rewrite Hfirst, Hadd. cbn. auto.
  - intros w2 Hg2 Hserved.
    assert (_get_identifier fixed name appname idx args kwargs w2 = (Ok (arg, ident), w2))
      as E2.
    { pose proof (get_identifier_profile fixed name appname idx args kwargs w w2 Hg2) as Hp.
      pose proof (get_identifier_state fixed name appname idx args kwargs w2) as Hs.
      rewrite E in Hp. cbn in Hp.
      destruct (_get_identifier fixed name appname idx args kwargs w2) as [r w']. cbn in *.
      now subst. }
    assert (Cache.get b (VStr ident) w2 =
            (Ok out, mkWorld _ (snd (backend "get" lookup (PVal VNone) (store w2)))
                       (app w2) (active_profile_guid w2)
                       (trace w2 ++ [dispatch_event "get" lookup (PVal VNone)])%list))
      as Hget.
    { rewrite Cache_get_backend. cbn [py_str]. fold lookup.
      rewrite Hserved. cbn [res_bind]. now rewrite Hdeser. }
    rewrite (wrapper_lookup_outcome b fixed name appname idx ttl func args kwargs
               w2 w2 _ arg ident (Ok out) E2 Hget) by discriminate.
    cbn. auto.
  - intros Hkeyed args' kwargs' arg' ident' out' payload' E' Hne Hmiss' Hout' Hser' addition'.
    assert (_get_identifier fixed name appname idx args' kwargs' w1 = (Ok (arg', ident'), w1))
      as E1.
    { pose proof (get_identifier_profile fixed name appname idx args' kwargs' w w1 Hguid) as Hp.
      pose proof (get_identifier_state fixed name appname idx args' kwargs' w1) as Hs.
      rewrite E' in Hp. cbn in Hp.
      destruct (_get_identifier fixed name appname idx args' kwargs' w1) as [r w']. cbn in *.
      now subst. }
    assert (fst (backend "get" (get_call_args b ident') (PVal VNone) (store w1))
            = Raise CacheMiss) as Hmiss1.
    { rewrite Hstore. unfold addition. rewrite Hkeyed by congruence. exact Hmiss'. }
    rewrite (wrapper_miss b fixed name appname idx ttl func args' kwargs' w1 w1
               arg' ident' out' payload' E1 Hmiss1 Hout' Hser').
    cbn. auto.
Qed.

End Memoization.

Lemma memoization_protocol_witness :
  let wrapped :=
    @cache_output_default Reference.service_py3
      (CACHE_COMMON (@g Reference.service_py3)) Reference.counting_func in
  let w0 := Reference.service_world "PROFILE1" in
  let w1 := snd (wrapped [VStr "show1"] ∅ w0) in
  fst (wrapped [VStr "show1"] ∅ w0) = Ok (VStr "first")
  /\ (fst (wrapped [VStr "show1"] ∅ w1) = Ok (VStr "first")
      /\ app (snd (wrapped [VStr "show1"] ∅ w1)) = app w1)
  /\ fst (wrapped [VStr "show2"] ∅ w1) = Ok (VStr "again").
Proof.
  intros wrapped w0 w1.
  destruct (@memoization_protocol Reference.service_py3
              (CACHE_COMMON (@g Reference.service_py3)) VNone "videoid" None 0 VNone
              Reference.counting_func [VStr "show1"] ∅ w0
              (VStr "show1") "PROFILE1_show1" (VStr "first")
              (list_byte_of_string "Xfirst") (PVal VNone))
    as ((Hfirst & _ & _) & Hagain & Hother); try reflexivity.
  split; [exact Hfirst|]. split.
  - pose proof (Hagain w1 eq_refl eq_refl) as (Hout & _ & Happ).
    split; [exact Hout|exact Happ].
  - pose proof (Hother (reference_keyed_by_identifier true false 86400)
                  [VStr "show2"] ∅ (VStr "show2") "PROFILE1_show2" (VStr "again")
                  (list_byte_of_string "Xagain")
                  eq_refl ltac:(discriminate) eq_refl eq_refl eq_refl) as (Hout & _).
    etransitivity; [exact Hout|reflexivity].
Defined.

(** ** The ttl cap of "my list" *)
Section MyList.
Context `{Platform}.

Lemma added_ttl_app (t1 t2 : list event) :
  added_ttl (t1 ++ t2) = (added_ttl t1 ++ added_ttl t2)%list.
Proof. unfold added_ttl. now rewrite List.filter_app, List.map_app. Qed.

Lemma added_ttl_miss (bk : bucket) (ident : string) (ttl : pyval) (payload : bytes)
    (args : list pyval) (kwargs : gmap string pyval) :
  added_ttl
    [dispatch_event "get" (get_call_args bk ident) (PVal VNone);
     EvFunc args kwargs;
     dispatch_event "add" (add_call_args bk ident (PVal VNone) ttl VNone) (PBytes payload)]
  = [Some (PVal ttl)].
Proof. unfold dispatch_event. destruct (IS_SERVICE g); reflexivity. Qed.

(** The positional fallback is what [_get_identifier] returns as
    [arg_value]. *)
Lemma get_identifier_fallback_arg fixed name appname idx args kwargs (w w' : World)
    (a arg : pyval) (ident : string) :
  truthy fixed = false ->
  truthy (kwargs_get kwargs name) = false ->
  args <> [] ->
  py_index args idx = Ok a ->
  _get_identifier fixed name appname idx args kwargs w = (Ok (arg, ident), w') ->
  arg = a.
Proof.
  intros Hf Hk Ha Hi.
  assert (negb (Nat.eqb (List.length args) 0) = true) as Hlen
    by (destruct args; [congruence|reflexivity]).
  unfold _get_identifier, bind, ret, lift, generate_identifier.
  rewrite Hf, Hk, Hlen, Hi. cbn [negb andb].
  destruct (truthy a && name_truthy appname && truthy (kwargs_get_opt kwargs appname)).
  - destruct (py_add (VStr "_") (kwargs_get_opt kwargs appname)) as [sfx|e]; [|discriminate].
    destruct (py_add a sfx); [|discriminate]. now intros [= <- _ _].
  - now intros [= <- _ _].
Qed.

(** C5 (amended): when no explicit ttl is configured and the value taken
    from the positional fallback (the kwarg named [identify_from] being
    absent or falsy, and no fixed identifier) equals ['mylist'], the add
    performed on a cache miss uses a ttl of [min(g.CACHE_TTL, 7200)]
    seconds. *)
Theorem mylist_ttl_cap
    (bk : bucket) (fixed : pyval) (name : string) (appname : option string) (idx : Z)
    (func : pyfun) (args : list pyval) (kwargs : gmap string pyval)
    (w w' : World) (arg : pyval) (ident : string) (out : pyval) (payload : bytes) :
  truthy fixed = false ->
  truthy (kwargs_get kwargs name) = false ->
  args <> [] ->
  py_index args idx = Ok (VStr "mylist") ->
  _get_identifier fixed name appname idx args kwargs w = (Ok (arg, ident), w') ->
  fst (backend "get" (get_call_args bk ident) (PVal VNone) (store w)) = Raise CacheMiss ->
  fst (func args kwargs (app w)) = Ok out ->
  _serialize_data out = Ok payload ->
  trace (snd (cache_output bk fixed name appname idx VNone func args kwargs w))
  = (trace w ++
     [dispatch_event "get" (get_call_args bk ident) (PVal VNone);
      EvFunc args kwargs;
      dispatch_event "add"
        (add_call_args bk ident (PVal VNone)
           (VInt (Z.min (CACHE_TTL g) 7200)) VNone)
        (PBytes payload)])%list
  /\ added_ttl (trace (snd (cache_output bk fixed name appname idx VNone func args kwargs w)))
     = (added_ttl (trace w) ++ [Some (PVal (VInt (Z.min (CACHE_TTL g) 7200)))])%list.
Proof.
  intros Hf Hk Ha Hi E Hmiss Hout Hser.
  pose proof (get_identifier_fallback_arg _ _ _ _ _ _ _ _ _ _ _ Hf Hk Ha Hi E) as ->.
  rewrite (wrapper_miss bk fixed name appname idx VNone func args kwargs w w'
             (VStr "mylist") ident out payload E Hmiss Hout Hser).
  cbn [snd trace].
  change (effective_ttl VNone (VStr "mylist")) with (VInt (Z.min (CACHE_TTL g) 7200)).
  split; [reflexivity|].
  rewrite added_ttl_app. f_equal. apply added_ttl_miss.
Qed.

End MyList.

Lemma mylist_ttl_cap_witness :
  added_ttl
    (trace (snd (@cache_output_default Reference.client_py2
                   (CACHE_COMMON (@g Reference.client_py2)) Reference.counting_func
                   [VStr "mylist"] ∅ (Reference.client_world "PROFILE1"))))
  = [Some (PVal (VInt 7200))].
Proof.
  apply (@mylist_ttl_cap Reference.client_py2
           (CACHE_COMMON (@g Reference.client_py2)) VNone "videoid" None 0
           Reference.counting_func [VStr "mylist"] ∅
           (Reference.client_world "PROFILE1") (Reference.client_world "PROFILE1")
           (VStr "mylist") "PROFILE1_mylist" (VStr "first")
           (Base64.standard_b64encode (list_byte_of_string "Xfirst")));
    (reflexivity || discriminate).
Defined.

(** C5, as stated, fails: when ['mylist'] is supplied through the
    [identify_from] kwarg, the add is made without a ttl. *)
Lemma mylist_by_kwarg_is_not_capped :
  let kwargs : gmap string pyval := {[ "videoid" := VStr "mylist" ]} in
  ~ (kwargs_get kwargs "videoid" = VStr "mylist" ->
     added_ttl
       (trace (snd (@cache_output_default Reference.service_py3
                      (CACHE_COMMON (@g Reference.service_py3)) Reference.counting_func
                      [] kwargs (Reference.service_world "PROFILE1"))))
     = [Some (PVal (VInt (Z.min (CACHE_TTL (@g Reference.service_py3))
                            CACHE_MYLIST_TTL_MAX)))]).
Proof.
  intros kwargs Hclaim. specialize (Hclaim eq_refl).
  vm_compute in Hclaim. discriminate Hclaim.
Qed.

(** ** A call without identifier *)

(** C1 (the code at the failing input): with no fixed identifier, no
    keyword argument and no positional argument, the derivation returns
    the profile prefix followed by [str(None)], a non-empty identifier.
    The wrapper therefore does not skip caching: it looks the identifier
    up and, on a miss, runs the function and adds the result; on the
    reference platform the entry is stored, and a second such call is
    served from the cache without invoking the function. *)
Theorem no_identifier_call_is_cached :
  (forall (P : Platform) (bk : bucket) (name : string) (appname : option string)
          (idx : Z) (ttl : pyval) (func : pyfun) (w : World),
     _get_identifier VNone name appname idx [] ∅ w
     = (Ok (VNone, active_profile_guid w ++ "_None"), w)
     /\ cache_output bk VNone name appname idx ttl func [] ∅ w
        = try_except_CacheMiss
            (Cache.get bk (VStr (active_profile_guid w ++ "_None")))
            (output <- call func [] ∅ ;;
             _ <- Cache.add bk (VStr (active_profile_guid w ++ "_None")) output
                    (effective_ttl ttl VNone) VNone ;;
             ret output)%py w)
  /\
  (let wrapped :=
     @cache_output_default Reference.service_py3
       (CACHE_COMMON (@g Reference.service_py3)) Reference.counting_func in
   let w0 := Reference.service_world "PROFILE1" in
   let w1 := snd (wrapped [] ∅ w0) in
   let w2 := snd (wrapped [] ∅ w1) in
   fst (wrapped [] ∅ w0) = Ok (VStr "first")
   /\ List.map event_callname (trace w1) = [Some "get"; None; Some "add"]
   /\ List.map (fun e => event_params e !! "identifier") (trace w1)
      = [Some (PVal (VStr "PROFILE1_None")); None; Some (PVal (VStr "PROFILE1_None"))]
   /\ Reference.memory (store w1) !! ("cache_common", "PROFILE1_None")
      = Some (Reference.mkEntry (list_byte_of_string "Xfirst") (1000 + 86400))
   /\ fst (wrapped [] ∅ w1) = Ok (VStr "first")
   /\ invocations (trace w2) = 1%nat
   /\ app w2 = app w1).
Proof.
  split.
  - intros P bk name appname idx ttl func w.
    assert (_get_identifier VNone name appname idx [] ∅ w
            = (Ok (VNone, active_profile_guid w ++ "_None"), w)) as E.
    { unfold _get_identifier, kwargs_get. rewrite lookup_empty. reflexivity. }
    split; [exact E|].
    exact (wrapper_lookup bk VNone name appname idx ttl func [] ∅ w w VNone _ E).
  - vm_compute. repeat split; reflexivity.
Qed.

(** ** Errors *)
Section Errors.
Context `{Platform}.

Lemma invocations_app (t1 t2 : list event) :
  invocations (t1 ++ t2) = (invocations t1 + invocations t2)%nat.
Proof. unfold invocations. now rewrite List.filter_app, List.length_app. Qed.

Lemma invocations_dispatch (tr : list event) (callname : string) (p : params) (data : value) :
  invocations (tr ++ [dispatch_event callname p data]) = invocations tr.
Proof.
  rewrite invocations_app. unfold dispatch_event.
  destruct (IS_SERVICE g); cbn; lia.
Qed.

Lemma make_call_effect (callname : string) (p : params) (data : value) (w : World) :
  app (snd (_make_call callname p data w)) = app w
  /\ invocations (trace (snd (_make_call callname p data w))) = invocations (trace w).
Proof.
  rewrite make_call_backend. cbn [snd app trace].
  split; [reflexivity|apply invocations_dispatch].
Qed.

(** C7: errors other than [CacheMiss] are never swallowed.  Whatever the
    underlying call of [Cache.get] raises, [CacheMiss] included, reaches
    the caller of [Cache.get] unchanged; the lookup of the wrapper
    catches [CacheMiss] only, so that any other exception raised by the
    cached read, a failure of the deserialization in particular,
    reaches the caller of the wrapped function, and the wrapped function
    is not invoked. *)
Theorem only_CacheMiss_is_caught
    (bk : bucket) (fixed : pyval) (name : string) (appname : option string)
    (idx : Z) (ttl : pyval) (func : pyfun) :
  (forall (identifier : pyval) (w w' : World) (e : exn),
     _make_call "get" (get_call_args bk (py_str identifier)) (PVal VNone) w = (Raise e, w') ->
     Cache.get bk identifier w = (Raise e, w'))
  /\
  (forall (args : list pyval) (kwargs : gmap string pyval) (w w' w2 : World)
          (arg : pyval) (ident : string) (e : exn),
     _get_identifier fixed name appname idx args kwargs w = (Ok (arg, ident), w') ->
     Cache.get bk (VStr ident) w = (Raise e, w2) ->
     e <> CacheMiss ->
     cache_output bk fixed name appname idx ttl func args kwargs w = (Raise e, w2)
     /\ invocations (trace w2) = invocations (trace w)
     /\ app w2 = app w)
  /\
  (forall (args : list pyval) (kwargs : gmap string pyval) (w w' w2 : World)
          (arg : pyval) (ident : string) (data : value) (e : exn),
     _get_identifier fixed name appname idx args kwargs w = (Ok (arg, ident), w') ->
     _make_call "get" (get_call_args bk ident) (PVal VNone) w = (Ok data, w2) ->
     _deserialize_data data = Raise e ->
     e <> CacheMiss ->
     cache_output bk fixed name appname idx ttl func args kwargs w = (Raise e, w2)
     /\ invocations (trace w2) = invocations (trace w)
     /\ app w2 = app w).
Proof.
  assert (forall (identifier : pyval) (w : World),
            Cache.get bk identifier w =
            (res_bind (fst (_make_call "get" (get_call_args bk (py_str identifier))
                              (PVal VNone) w)) _deserialize_data,
             snd (_make_call "get" (get_call_args bk (py_str identifier))
                    (PVal VNone) w))) as Hget.
  { intros identifier w. unfold Cache.get, bind, lift.
    fold (get_call_args bk (py_str identifier)).
    destruct (_make_call "get" _ _ w) as [[data|e] w1]; reflexivity. }
  assert (forall (args : list pyval) (kwargs : gmap string pyval) (w w' w2 : World)
                 (arg : pyval) (ident : string) (e : exn),
            _get_identifier fixed name appname idx args kwargs w = (Ok (arg, ident), w') ->
            Cache.get bk (VStr ident) w = (Raise e, w2) ->
            e <> CacheMiss ->
            cache_output bk fixed name appname idx ttl func args kwargs w = (Raise e, w2)
            /\ invocations (trace w2) = invocations (trace w)
            /\ app w2 = app w) as Hwrap.
  { intros args kwargs w w' w2 arg ident e E Hg Hne.
    split.
    - apply (wrapper_lookup_outcome bk fixed name appname idx ttl func args kwargs
               w w' w2 arg ident (Raise e) E Hg). congruence.
    - rewrite Hget in Hg. injection Hg as _ <-.
      destruct (make_call_effect "get" (get_call_args bk (py_str (VStr ident)))
                  (PVal VNone) w) as [Ha Hi].
      split; [exact Hi|exact Ha]. }
  split; [|split].
  - intros identifier w w' e Hc. rewrite Hget, Hc. reflexivity.
  - exact Hwrap.
  - intros args kwargs w w' w2 arg ident data e E Hc Hd Hne.
    apply (Hwrap args kwargs w w' w2 arg ident e E); [|exact Hne].
    rewrite Hget. cbn [py_str]. rewrite Hc. cbn. now rewrite Hd.
Qed.

End Errors.

Lemma only_CacheMiss_is_caught_witness :
  let P := Reference.service_py3 in
  let corrupt : @World P :=
    @mkWorld P
      (Reference.mkStore 1000
         {[ ("cache_common", "PROFILE1_show1") := Reference.mkEntry ["?"%byte] 5000 ]})
      0%nat "PROFILE1" [] in
  fst (@Cache.get P (CACHE_COMMON (@g P)) (VStr "PROFILE1_show1")
         (Reference.service_world "PROFILE1")) = Raise CacheMiss
  /\ (@cache_output_default P (mkBucket "cache_unknown" false 60) Reference.counting_func
        [VStr "show1"] ∅ (Reference.service_world "PROFILE1")
      = (Raise (OtherError "UnknownBucket"),
         snd (@Cache.get P (mkBucket "cache_unknown" false 60) (VStr "PROFILE1_show1")
                (Reference.service_world "PROFILE1"))))
  /\ (fst (@cache_output_default P (CACHE_COMMON (@g P)) Reference.counting_func
             [VStr "show1"] ∅ corrupt) = Raise (OtherError "UnpicklingError")
      /\ app (snd (@cache_output_default P (CACHE_COMMON (@g P)) Reference.counting_func
                     [VStr "show1"] ∅ corrupt)) = 0%nat).
Proof.
  intros P corrupt.
  split; [|split].
  - destruct (@only_CacheMiss_is_caught P (CACHE_COMMON (@g P)) VNone "videoid" None 0
                VNone Reference.counting_func) as (Hget & _ & _).
    rewrite (Hget (VStr "PROFILE1_show1") (Reference.service_world "PROFILE1")
               (snd (@_make_call P "get"
                       (get_call_args (CACHE_COMMON (@g P)) "PROFILE1_show1")
                       (PVal VNone) (Reference.service_world "PROFILE1")))
               CacheMiss eq_refl).
    reflexivity.
  - destruct (@only_CacheMiss_is_caught P (mkBucket "cache_unknown" false 60)
                VNone "videoid" None 0 VNone Reference.counting_func)
      as (_ & Hwrap & _).
    apply (Hwrap [VStr "show1"] ∅ (Reference.service_world "PROFILE1")
             (Reference.service_world "PROFILE1") _ (VStr "show1") "PROFILE1_show1"
             (OtherError "UnknownBucket"));
      (reflexivity || discriminate).
  - destruct (@only_CacheMiss_is_caught P (CACHE_COMMON (@g P)) VNone "videoid" None 0
                VNone Reference.counting_func) as (_ & _ & Hdeser).
    destruct (Hdeser [VStr "show1"] ∅ corrupt corrupt
                (snd (@_make_call P "get"
                        (get_call_args (CACHE_COMMON (@g P)) "PROFILE1_show1")
                        (PVal VNone) corrupt))
                (VStr "show1") "PROFILE1_show1" (PBytes ["?"%byte])
                (OtherError "UnpicklingError"))
      as (Hraise & _ & Happ); try (reflexivity || discriminate).
    unfold cache_output_default. rewrite Hraise. split; [reflexivity|exact Happ].
Defined.

(** ** Identifiers of any type *)
Section Coercion.
Context `{Platform}.

Lemma dispatch_event_callname (callname : string) (p : params) (data : value) :
  event_callname (dispatch_event callname p data) = Some callname.
Proof. unfold dispatch_event. now destruct (IS_SERVICE g). Qed.

Lemma dispatch_event_params (callname : string) (p : params) (data : value) (k : string) :
  k <> "data" ->
  event_params (dispatch_event callname p data) !! k = p !! k.
Proof.
  intros Hk. unfold dispatch_event.
  destruct (IS_SERVICE g); cbn [event_params]; [|reflexivity].
  destruct (decide (is_Some (p !! "data"))); [|reflexivity].
  now rewrite lookup_insert_ne by congruence.
Qed.

Lemma Cache_delete_backend (bk : bucket) (identifier : pyval) (w : World) :
  Cache.delete bk identifier w =
  (res_bind (fst (backend "delete" (get_call_args bk (py_str identifier)) (PVal VNone)
                    (store w))) (fun _ => Ok tt),
   mkWorld _ (snd (backend "delete" (get_call_args bk (py_str identifier)) (PVal VNone)
                     (store w)))
     (app w) (active_profile_guid w)
     (trace w ++ [dispatch_event "delete" (get_call_args bk (py_str identifier))
                    (PVal VNone)])%list).
Proof.
  unfold Cache.delete, bind. fold (get_call_args bk (py_str identifier)).
  rewrite make_call_backend.
  now destruct (fst (backend _ _ _ _)).
Qed.

(** C9: [get], [add] and [delete] pass [str(identifier)] to the
    dispatch.  An identifier of any type is therefore accepted, the call
    that leaves the facade carries its string form, and two identifiers
    with the same string form are interchangeable: an add under [x]
    followed by a get or a delete under [y] is the same as followed by a
    get or a delete under [x]. *)
Theorem identifier_is_coerced_to_str
    (bk : bucket) (x y data ttl expires : pyval) :
  py_str x = py_str y ->
  (Cache.get bk x = Cache.get bk y
   /\ Cache.add bk x data ttl expires = Cache.add bk y data ttl expires
   /\ Cache.delete bk x = Cache.delete bk y)
  /\
  (forall w : World,
     (exists e,
        trace (snd (Cache.get bk x w)) = (trace w ++ [e])%list
        /\ event_callname e = Some "get"
        /\ event_params e !! "bucket" = Some (PBucket bk)
        /\ event_params e !! "identifier" = Some (PVal (VStr (py_str x))))
     /\ (exists e,
        trace (snd (Cache.delete bk x w)) = (trace w ++ [e])%list
        /\ event_callname e = Some "delete"
        /\ event_params e !! "bucket" = Some (PBucket bk)
        /\ event_params e !! "identifier" = Some (PVal (VStr (py_str x))))
     /\ (forall payload,
        _serialize_data data = Ok payload ->
        exists e,
          trace (snd (Cache.add bk x data ttl expires w)) = (trace w ++ [e])%list
          /\ event_callname e = Some "add"
          /\ event_params e !! "bucket" = Some (PBucket bk)
          /\ event_params e !! "identifier" = Some (PVal (VStr (py_str x)))))
  /\
  (forall w : World,
     Cache.get bk y (snd (Cache.add bk x data ttl expires w))
     = Cache.get bk x (snd (Cache.add bk x data ttl expires w))
     /\ Cache.delete bk y (snd (Cache.add bk x data ttl expires w))
        = Cache.delete bk x (snd (Cache.add bk x data ttl expires w))).
Proof.
  intros Hstr.
  assert (Cache.get bk x = Cache.get bk y) as Hg
    by (unfold Cache.get; now rewrite Hstr).
  assert (Cache.delete bk x = Cache.delete bk y) as Hd
    by (unfold Cache.delete; now rewrite Hstr).
  split; [|split].
  - split; [exact Hg|]. split; [|exact Hd].
    unfold Cache.add. now rewrite Hstr.
  - intros w. split; [|split].
    + eexists. rewrite Cache_get_backend. cbn [snd trace].
      split; [reflexivity|]. split; [apply dispatch_event_callname|].
      rewrite !dispatch_event_params by discriminate.
      split; reflexivity.
    + eexists. rewrite Cache_delete_backend. cbn [snd trace].
      split; [reflexivity|]. split; [apply dispatch_event_callname|].
      rewrite !dispatch_event_params by discriminate.
      split; reflexivity.
    + intros payload Hser. eexists.
      rewrite (Cache_add_backend _ _ _ _ _ payload) by exact Hser. cbn [snd trace].
      split; [reflexivity|]. split; [apply dispatch_event_callname|].
      rewrite !dispatch_event_params by discriminate.
      split; reflexivity.
  - intros w. now rewrite Hg, Hd.
Qed.

End Coercion.

Lemma identifier_is_coerced_to_str_witness :
  let P := Reference.service_py3 in
  let w1 :=
    snd (@Cache.add P (CACHE_COMMON (@g P)) (VInt 80018294) (VStr "episodes") VNone VNone
           (Reference.service_world "PROFILE1")) in
  py_str (VInt 80018294) = py_str (VStr "80018294")
  /\ fst (@Cache.get P (CACHE_COMMON (@g P)) (VStr "80018294") w1) = Ok (VStr "episodes")
  /\ fst (@Cache.get P (CACHE_COMMON (@g P)) (VInt 80018294) w1) = Ok (VStr "episodes").
Proof.
  intros P w1.
  destruct (@identifier_is_coerced_to_str P (CACHE_COMMON (@g P))
              (VInt 80018294) (VStr "80018294") (VStr "episodes") VNone VNone eq_refl)
    as (_ & _ & Hseq).
  destruct (Hseq (Reference.service_world "PROFILE1")) as [Hget _].
  fold w1 in Hget.
  split; [reflexivity|]. split.
  - rewrite Hget. reflexivity.
  - reflexivity.
Defined.

(** ** Dispatch of the facade *)
Section Dispatch.
Context `{Platform}.

(** C6: every operation of the facade goes through [_make_call] with the
    method name and its marshalled parameters.  In the service process
    the call is made directly on the cache management, with the
    parameters of the call and, for [add], the serialized payload in the
    ['data'] parameter; in any other process the method name, the
    parameter mapping (whose ['data'] entry is [None]) and the payload,
    apart from it, go to the IPC cache call.  In both cases what the call
    returns or raises is what [_make_call] returns or raises; [get]
    deserializes the returned payload. *)
Theorem facade_dispatch :
  (IS_SERVICE g = true ->
   forall (callname : string) (p : params) (data : value) (w : World),
     let p' := if decide (is_Some (p !! "data")) then <["data" := data]> p else p in
     _make_call callname p data w =
     (fst (CACHE_MANAGEMENT callname p' (store w)),
      mkWorld _ (snd (CACHE_MANAGEMENT callname p' (store w))) (app w)
        (active_profile_guid w) (trace w ++ [EvManagement callname p'])%list))
  /\
  (IS_SERVICE g = false ->
   forall (callname : string) (p : params) (data : value) (w : World),
     _make_call callname p data w =
     (fst (make_http_call_cache callname p data (store w)),
      mkWorld _ (snd (make_http_call_cache callname p data (store w))) (app w)
        (active_profile_guid w) (trace w ++ [EvHttp callname p data])%list))
  /\
  (forall (bk : bucket) (identifier : pyval) (w : World),
     Cache.get bk identifier w =
     (res_bind
        (fst (_make_call "get" (get_call_args bk (py_str identifier)) (PVal VNone) w))
        _deserialize_data,
      snd (_make_call "get" (get_call_args bk (py_str identifier)) (PVal VNone) w)))
  /\
  (forall (bk : bucket) (identifier data ttl expires : pyval) (payload : bytes) (w : World),
     _serialize_data data = Ok payload ->
     Cache.add bk identifier data ttl expires w =
     (res_bind
        (fst (_make_call "add"
                (add_call_args bk (py_str identifier) (PVal VNone) ttl expires)
                (PBytes payload) w))
        (fun _ => Ok tt),
      snd (_make_call "add"
             (add_call_args bk (py_str identifier) (PVal VNone) ttl expires)
             (PBytes payload) w)))
  /\
  (forall (bk : bucket) (identifier : pyval) (w : World),
     Cache.delete bk identifier w =
     (res_bind
        (fst (_make_call "delete" (get_call_args bk (py_str identifier)) (PVal VNone) w))
        (fun _ => Ok tt),
      snd (_make_call "delete" (get_call_args bk (py_str identifier)) (PVal VNone) w)))
  /\
  (forall (buckets : option (list bucket)) (clear_database : bool) (w : World),
     Cache.clear buckets clear_database w =
     (res_bind
        (fst (_make_call "clear" (clear_call_args buckets clear_database) (PVal VNone) w))
        (fun _ => Ok tt),
      snd (_make_call "clear" (clear_call_args buckets clear_database) (PVal VNone) w)))
  /\
  (forall (bk : bucket) (i : string) (ttl expires : pyval) (payload : bytes)
          (buckets : option (list bucket)) (clear_database : bool),
     add_call_args bk i (PVal VNone) ttl expires !! "data" = Some (PVal VNone)
     /\ (if decide (is_Some (add_call_args bk i (PVal VNone) ttl expires !! "data"))
         then <["data" := PBytes payload]> (add_call_args bk i (PVal VNone) ttl expires)
         else add_call_args bk i (PVal VNone) ttl expires)
        = add_call_args bk i (PBytes payload) ttl expires
     /\ (if decide (is_Some (get_call_args bk i !! "data"))
         then <["data" := PVal VNone]> (get_call_args bk i)
         else get_call_args bk i)
        = get_call_args bk i
     /\ (if decide (is_Some (clear_call_args buckets clear_database !! "data"))
         then <["data" := PVal VNone]> (clear_call_args buckets clear_database)
         else clear_call_args buckets clear_database)
        = clear_call_args buckets clear_database).
Proof.
  split; [|split; [|split; [|split; [|split; [|split]]]]].
  - intros Hs callname p data w p'. unfold _make_call, call_management.
    rewrite Hs. fold p'. cbn. now destruct (CACHE_MANAGEMENT callname p' (store w)).
  - intros Hs callname p data w. unfold _make_call, call_http.
    rewrite Hs. cbn. now destruct (make_http_call_cache callname p data (store w)).
  - intros bk identifier w. unfold Cache.get, bind, lift.
    fold (get_call_args bk (py_str identifier)).
    now destruct (_make_call "get" _ _ w) as [[r|e] w'].
  - intros bk identifier data ttl expires payload w Hser.
    unfold Cache.add, bind, lift, ret. rewrite Hser.
    fold (add_call_args bk (py_str identifier) (PVal VNone) ttl expires).
    now destruct (_make_call "add" _ _ w) as [[r|e] w'].
  - intros bk identifier w. unfold Cache.delete, bind, ret.
    fold (get_call_args bk (py_str identifier)).
    now destruct (_make_call "delete" _ _ w) as [[r|e] w'].
  - intros buckets clear_database w. unfold Cache.clear, bind, ret.
    fold (clear_call_args buckets clear_database).
    now destruct (_make_call "clear" _ _ w) as [[r|e] w'].
  - intros bk i ttl expires payload buckets clear_database.
    repeat split; reflexivity.
Qed.

End Dispatch.

Lemma facade_dispatch_witness :
  let bk := CACHE_COMMON (@g Reference.service_py3) in
  trace (snd (@Cache.add Reference.service_py3 bk (VStr "PROFILE1_show1")
                (VStr "episodes") VNone VNone (Reference.service_world "PROFILE1")))
  = [EvManagement "add"
       (add_call_args bk "PROFILE1_show1"
          (PBytes (list_byte_of_string "Xepisodes")) VNone VNone)]
  /\ trace (snd (@Cache.add Reference.client_py2 bk (VStr "PROFILE1_show1")
                (VStr "episodes") VNone VNone (Reference.client_world "PROFILE1")))
     = [EvHttp "add"
          (add_call_args bk "PROFILE1_show1" (PVal VNone) VNone VNone)
          (PBytes (Base64.standard_b64encode (list_byte_of_string "Xepisodes")))].
Proof.
  intros bk. split.
  - destruct (@facade_dispatch Reference.service_py3)
      as (Hservice & _ & _ & Hadd & _ & _ & Hargs).
    rewrite (Hadd bk (VStr "PROFILE1_show1") (VStr "episodes") VNone VNone
               (list_byte_of_string "Xepisodes") _ eq_refl).
    rewrite (Hservice eq_refl). reflexivity.
  - destruct (@facade_dispatch Reference.client_py2)
      as (_ & Hclient & _ & Hadd & _).
    rewrite (Hadd bk (VStr "PROFILE1_show1") (VStr "episodes") VNone VNone
               (Base64.standard_b64encode (list_byte_of_string "Xepisodes")) _ eq_refl).
    rewrite (Hclient eq_refl). reflexivity.
Defined.

(** * Further properties of the wrapper and the facade *)

Section WrapperOutcomes.
Context `{Platform}.

Variables (b : bucket) (fixed : pyval) (name : string) (appname : option string)
          (idx : Z) (ttl : pyval) (func : pyfun).

(** X1: whenever the derivation returns, the wrapper consults the cache:
    the identifier is never empty, the branch that would call the function
    directly is not taken, and the first call that leaves the wrapper is
    the [get] of the derived identifier in the bucket. *)
Theorem wrapper_always_looks_up
    (args : list pyval) (kwargs : gmap string pyval) (w w' : World)
    (arg : pyval) (ident : string) :
  _get_identifier fixed name appname idx args kwargs w = (Ok (arg, ident), w') ->
  ident <> ""
  /\ exists rest : list event,
       trace (snd (cache_output b fixed name appname idx ttl func args kwargs w))
       = (trace w ++
          dispatch_event "get" (get_call_args b ident) (PVal VNone) :: rest)%list.
Proof.
  intros E. split.
  - apply get_identifier_Ok in E as (_ & _ & Ht). now apply truthy_VStr.
  - rewrite (wrapper_lookup b fixed name appname idx ttl func args kwargs w w' arg ident E).
    unfold try_except_CacheMiss. rewrite Cache_get_backend. cbn [py_str].
    destruct (res_bind _ _) as [v|e]; [exists []; reflexivity|].
    destruct e; try (exists []; reflexivity).
    unfold bind. rewrite call_eq. cbn [store app active_profile_guid trace].
    destruct (fst (func args kwargs (app w))) as [out|e].
    + destruct (_serialize_data out) as [payload|e] eqn:Hser.
      * rewrite (Cache_add_backend _ _ _ _ _ payload) by exact Hser.
        cbn [store app active_profile_guid trace fst snd].
        destruct (res_bind _ _); cbn [snd trace]; rewrite <- !app_assoc;
          eexists; reflexivity.
      * rewrite (Cache_add_unserializable _ _ _ _ _ e) by exact Hser.
        cbn [snd trace]. rewrite <- app_assoc. eexists; reflexivity.
    + cbn [snd trace]. rewrite <- app_assoc. eexists; reflexivity.
Qed.

(** X2: an exception of the identifier derivation (an [IndexError] of
    the positional fallback, a [TypeError] of the append) is the outcome
    of the wrapped call; no cache call is made, the function is not
    invoked and the state is unchanged. *)
Theorem derivation_error_propagates
    (args : list pyval) (kwargs : gmap string pyval) (w w' : World) (e : exn) :
  _get_identifier fixed name appname idx args kwargs w = (Raise e, w') ->
  cache_output b fixed name appname idx ttl func args kwargs w = (Raise e, w)
  /\ (e = IndexError \/ e = TypeError).
Proof.
  intros E.
  pose proof (get_identifier_state fixed name appname idx args kwargs w) as Hs.
  pose proof (get_identifier_result fixed name appname idx args kwargs w) as Hr.
  rewrite E in Hs, Hr. cbn in Hs, Hr. subst w'.
  split; [|exact Hr].
  unfold cache_output. rewrite E. now destruct Hr as [-> | ->].
Qed.

(** X3: a computation that fails is not cached.  On a miss, an exception
    of the function ([CacheMiss] included) is the outcome of the wrapped
    call, and after the lookup and the invocation nothing is added. *)
Theorem failed_call_is_not_cached
    (args : list pyval) (kwargs : gmap string pyval) (w w' : World)
    (arg : pyval) (ident : string) (e : exn) :
  _get_identifier fixed name appname idx args kwargs w = (Ok (arg, ident), w') ->
  fst (backend "get" (get_call_args b ident) (PVal VNone) (store w)) = Raise CacheMiss ->
  fst (func args kwargs (app w)) = Raise e ->
  cache_output b fixed name appname idx ttl func args kwargs w =
  (Raise e,
   mkWorld _
     (snd (backend "get" (get_call_args b ident) (PVal VNone) (store w)))
     (snd (func args kwargs (app w)))
     (active_profile_guid w)
     (trace w ++
      [dispatch_event "get" (get_call_args b ident) (PVal VNone);
       EvFunc args kwargs])%list).
Proof.
  intros E Hmiss Hfail.
  rewrite (wrapper_lookup b fixed name appname idx ttl func args kwargs w w' arg ident E).
  unfold try_except_CacheMiss. rewrite Cache_get_backend. cbn [py_str].
  rewrite Hmiss. cbn [res_bind].
  unfold bind. rewrite call_eq. cbn [store app active_profile_guid trace].
  rewrite Hfail. now rewrite <- app_assoc.
Qed.

(** X4: a result that cannot be stored fails the call.  On a miss, after
    the function has run, a failure to serialize its output is raised
    before anything is sent to the backend, and an exception of the
    backend's [add] is raised as well: in both cases the caller does not
    get the output. *)
Theorem store_failure_fails_call
    (args : list pyval) (kwargs : gmap string pyval) (w w' : World)
    (arg : pyval) (ident : string) (out : pyval) :
  _get_identifier fixed name appname idx args kwargs w = (Ok (arg, ident), w') ->
  fst (backend "get" (get_call_args b ident) (PVal VNone) (store w)) = Raise CacheMiss ->
  fst (func args kwargs (app w)) = Ok out ->
  (forall e : exn,
     _serialize_data out = Raise e ->
     cache_output b fixed name appname idx ttl func args kwargs w =
     (Raise e,
      mkWorld _
        (snd (backend "get" (get_call_args b ident) (PVal VNone) (store w)))
        (snd (func args kwargs (app w)))
        (active_profile_guid w)
        (trace w ++
         [dispatch_event "get" (get_call_args b ident) (PVal VNone);
          EvFunc args kwargs])%list))
  /\
  (forall (payload : bytes) (e : exn),
     _serialize_data out = Ok payload ->
     fst (backend "add"
            (add_call_args b ident (PVal VNone) (effective_ttl ttl arg) VNone)
            (PBytes payload)
            (snd (backend "get" (get_call_args b ident) (PVal VNone) (store w))))
     = Raise e ->
     fst (cache_output b fixed name appname idx ttl func args kwargs w) = Raise e).
Proof.
  intros E Hmiss Hout. split.
  - intros e Hser.
    rewrite (wrapper_lookup b fixed name appname idx ttl func args kwargs w w' arg ident E).
    unfold try_except_CacheMiss. rewrite Cache_get_backend. cbn [py_str].
    rewrite Hmiss. cbn [res_bind].
    unfold bind. rewrite call_eq. cbn [store app active_profile_guid trace].
    rewrite Hout. rewrite (Cache_add_unserializable _ _ _ _ _ e) by exact Hser.
    now rewrite <- app_assoc.
  - intros payload e Hser Hadd.
    rewrite (wrapper_miss b fixed name appname idx ttl func args kwargs w w'
               arg ident out payload E Hmiss Hout Hser).
    cbn [fst]. now rewrite Hadd.
Qed.

(** X5: the ttl handed to [add] on a miss.  An explicit, truthy ttl of
    the decorator is passed through unchanged, also for ['mylist']; an
    explicit ttl of 0 is not [None], so the cap of ['mylist'] does not
    apply, and being falsy it is replaced by [None]; without explicit ttl
    and without ['mylist'] as positional value, [None] is passed. *)
Theorem ttl_handed_to_add
    (args : list pyval) (kwargs : gmap string pyval) (w w' : World)
    (arg : pyval) (ident : string) (out : pyval) (payload : bytes) :
  _get_identifier fixed name appname idx args kwargs w = (Ok (arg, ident), w') ->
  fst (backend "get" (get_call_args b ident) (PVal VNone) (store w)) = Raise CacheMiss ->
  fst (func args kwargs (app w)) = Ok out ->
  _serialize_data out = Ok payload ->
  let added :=
    added_ttl (trace (snd (cache_output b fixed name appname idx ttl func args kwargs w))) in
  (truthy ttl = true -> added = (added_ttl (trace w) ++ [Some (PVal ttl)])%list)
  /\ (ttl = VInt 0 -> added = (added_ttl (trace w) ++ [Some (PVal VNone)])%list)
  /\ (ttl = VNone -> py_eq_str arg "mylist" = false ->
      added = (added_ttl (trace w) ++ [Some (PVal VNone)])%list).
Proof.
  intros E Hmiss Hout Hser added. subst added.
  rewrite (wrapper_miss b fixed name appname idx ttl func args kwargs w w'
             arg ident out payload E Hmiss Hout Hser).
  cbn [snd trace]. rewrite added_ttl_app, added_ttl_miss.
  unfold effective_ttl, py_or.
  split; [|split].
  - intros Ht. now rewrite Ht.
  - intros ->. reflexivity.
  - intros -> Hm. cbn. now rewrite Hm.
Qed.

End WrapperOutcomes.

Lemma wrapper_always_looks_up_witness :
  "PROFILE1_0" <> ""
  /\ exists rest : list event,
       trace (snd (@cache_output_default Reference.service_py3
                     (CACHE_COMMON (@g Reference.service_py3)) Reference.counting_func
                     [VInt 0] ∅ (Reference.service_world "PROFILE1")))
       = (@dispatch_event Reference.service_py3 "get"
            (get_call_args (CACHE_COMMON (@g Reference.service_py3)) "PROFILE1_0")
            (PVal VNone) :: rest)%list.
Proof.
  apply (@wrapper_always_looks_up Reference.service_py3
           (CACHE_COMMON (@g Reference.service_py3)) VNone "videoid" None 0 VNone
           Reference.counting_func [VInt 0] ∅
           (Reference.service_world "PROFILE1") (Reference.service_world "PROFILE1")
           (VInt 0) "PROFILE1_0").
  reflexivity.
Defined.

Lemma derivation_error_propagates_witness :
  (@cache_output Reference.service_py3
     (CACHE_COMMON (@g Reference.service_py3)) VNone "videoid" None 1 VNone
     Reference.counting_func [VStr "show1"] ∅ (Reference.service_world "PROFILE1")
   = (Raise IndexError, Reference.service_world "PROFILE1"))
  /\ (IndexError = IndexError \/ IndexError = TypeError).
Proof.
  apply (@derivation_error_propagates Reference.service_py3
           (CACHE_COMMON (@g Reference.service_py3)) VNone "videoid" None 1 VNone
           Reference.counting_func [VStr "show1"] ∅
           (Reference.service_world "PROFILE1") (Reference.service_world "PROFILE1")
           IndexError).
  reflexivity.
Defined.

Lemma failed_call_is_not_cached_witness :
  let w := Reference.service_world "PROFILE1" in
  let w1 :=
    snd (@cache_output_default Reference.service_py3
           (CACHE_COMMON (@g Reference.service_py3)) Reference.failing_func
           [VStr "show1"] ∅ w) in
  fst (@cache_output_default Reference.service_py3
         (CACHE_COMMON (@g Reference.service_py3)) Reference.failing_func
         [VStr "show1"] ∅ w) = Raise (OtherError "HTTPError")
  /\ added_ttl (trace w1) = []
  /\ Reference.memory (store w1) = ∅.
Proof.
  intros w w1. subst w1. unfold cache_output_default.
  rewrite (@failed_call_is_not_cached Reference.service_py3
             (CACHE_COMMON (@g Reference.service_py3)) VNone "videoid" None 0 VNone
             Reference.failing_func [VStr "show1"] ∅ w w
             (VStr "show1") "PROFILE1_show1" (OtherError "HTTPError"));
    [repeat split; reflexivity | reflexivity ..].
Defined.

Lemma store_failure_fails_call_witness :
  fst (@cache_output_default Reference.service_py3
         (CACHE_COMMON (@g Reference.service_py3)) Reference.number_func
         [VStr "show1"] ∅ (Reference.service_world "PROFILE1"))
  = Raise (OtherError "PicklingError").
Proof.
  destruct (@store_failure_fails_call Reference.service_py3
              (CACHE_COMMON (@g Reference.service_py3)) VNone "videoid" None 0 VNone
              Reference.number_func [VStr "show1"] ∅
              (Reference.service_world "PROFILE1") (Reference.service_world "PROFILE1")
              (VStr "show1") "PROFILE1_show1" (VInt 42))
    as [Hser _]; [reflexivity | reflexivity | reflexivity |].
  unfold cache_output_default.
  rewrite (Hser (OtherError "PicklingError") eq_refl). reflexivity.
Defined.

Lemma ttl_handed_to_add_witness :
  added_ttl
    (trace (snd (@cache_output Reference.service_py3
                   (CACHE_COMMON (@g Reference.service_py3)) VNone "videoid" None 0
                   (VInt 600) Reference.counting_func
                   [VStr "mylist"] ∅ (Reference.service_world "PROFILE1"))))
  = [Some (PVal (VInt 600))]
  /\ added_ttl
    (trace (snd (@cache_output Reference.service_py3
                   (CACHE_COMMON (@g Reference.service_py3)) VNone "videoid" None 0
                   (VInt 0) Reference.counting_func
                   [VStr "mylist"] ∅ (Reference.service_world "PROFILE1"))))
  = [Some (PVal VNone)]
  /\ added_ttl
    (trace (snd (@cache_output Reference.service_py3
                   (CACHE_COMMON (@g Reference.service_py3)) VNone "videoid" None 0
                   VNone Reference.counting_func
                   [VStr "show1"] ∅ (Reference.service_world "PROFILE1"))))
  = [Some (PVal VNone)].
Proof.
  split; [|split].
  - destruct (@ttl_handed_to_add Reference.service_py3
                (CACHE_COMMON (@g Reference.service_py3)) VNone "videoid" None 0
                (VInt 600) Reference.counting_func [VStr "mylist"] ∅
                (Reference.service_world "PROFILE1") (Reference.service_world "PROFILE1")
                (VStr "mylist") "PROFILE1_mylist" (VStr "first")
                (list_byte_of_string "Xfirst"))
      as (Hexplicit & _ & _); [reflexivity | reflexivity | reflexivity | reflexivity |].
    exact (Hexplicit eq_refl).
  - destruct (@ttl_handed_to_add Reference.service_py3
                (CACHE_COMMON (@g Reference.service_py3)) VNone "videoid" None 0
                (VInt 0) Reference.counting_func [VStr "mylist"] ∅
                (Reference.service_world "PROFILE1") (Reference.service_world "PROFILE1")
                (VStr "mylist") "PROFILE1_mylist" (VStr "first")
                (list_byte_of_string "Xfirst"))
      as (_ & Hzero & _); [reflexivity | reflexivity | reflexivity | reflexivity |].
    exact (Hzero eq_refl).
  - destruct (@ttl_handed_to_add Reference.service_py3
                (CACHE_COMMON (@g Reference.service_py3)) VNone "videoid" None 0
                VNone Reference.counting_func [VStr "show1"] ∅
                (Reference.service_world "PROFILE1") (Reference.service_world "PROFILE1")
                (VStr "show1") "PROFILE1_show1" (VStr "first")
                (list_byte_of_string "Xfirst"))
      as (_ & _ & Hplain); [reflexivity | reflexivity | reflexivity | reflexivity |].
    exact (Hplain eq_refl eq_refl).
Defined.

(** ** Identifiers: failures and collisions *)
Section IdentifierEdges.
Context `{Platform}.

(** X6: the append needs strings.  When a secondary kwarg is configured
    and truthy in the call, and the derived identifier (from the kwarg or
    from the positional fallback) or the secondary value is a number, the
    concatenation raises [TypeError]: the wrapped call fails with it,
    without any cache call and without invoking the function. *)
Theorem append_needs_strings
    (bk : bucket) (fixed : pyval) (name a : string) (idx : Z) (ttl : pyval)
    (func : pyfun) (args : list pyval) (kwargs : gmap string pyval) (w : World)
    (base : pyval) :
  truthy fixed = false ->
  (truthy (kwargs_get kwargs name) = true /\ base = kwargs_get kwargs name)
  \/ (truthy (kwargs_get kwargs name) = false /\ args <> []
      /\ py_index args idx = Ok base) ->
  truthy base = true ->
  a <> "" ->
  truthy (kwargs_get kwargs a) = true ->
  (exists z, base = VInt z) \/ base = VBool true
  \/ (exists z, kwargs_get kwargs a = VInt z) \/ kwargs_get kwargs a = VBool true ->
  _get_identifier fixed name (Some a) idx args kwargs w = (Raise TypeError, w)
  /\ cache_output bk fixed name (Some a) idx ttl func args kwargs w = (Raise TypeError, w).
Proof.
  intros Hf Hbase Htb Ha Hts Hnum.
  assert (_get_identifier fixed name (Some a) idx args kwargs w = (Raise TypeError, w)) as E.
  { unfold _get_identifier, bind, ret, lift, generate_identifier. rewrite Hf.
    destruct Hbase as [(Hk & ->)|(Hk & Hargs & Hi)]; rewrite Hk;
      cbn [negb andb List.length Nat.eqb].
    2: (destruct args as [|x args];
        [congruence|cbn [List.length Nat.eqb negb]; rewrite Hi]).
    all: cbn beta iota zeta; cbn [kwargs_get_opt]; rewrite Htb, Hts, (name_truthy_Some a Ha);
      cbn [andb];
      destruct Hnum as [[z Hz]|[Hz|[[z Hz]|Hz]]]; rewrite ?Hz in *;
      try reflexivity.
    all: match goal with
         | |- context [py_add (VStr "_") ?v] => destruct v; try reflexivity
         end. }
  split; [exact E|].
  unfold cache_output. now rewrite E.
Qed.

(** The derivation from a truthy kwarg, in closed form. *)
Lemma get_identifier_from_kwarg
    (fixed : pyval) (name : string) (appname : option string) (idx : Z)
    (args : list pyval) (kwargs : gmap string pyval) (w : World) :
  truthy fixed = false ->
  truthy (kwargs_get kwargs name) = true ->
  _get_identifier fixed name appname idx args kwargs w =
  ((if name_truthy appname && truthy (kwargs_get_opt kwargs appname)
    then
      res_bind (py_add (VStr "_") (kwargs_get_opt kwargs appname))
        (fun sfx =>
           res_bind (py_add (kwargs_get kwargs name) sfx)
             (fun i => Ok (VNone, active_profile_guid w ++ "_" ++ py_str i)))
    else Ok (VNone, active_profile_guid w ++ "_" ++ py_str (kwargs_get kwargs name))), w).
Proof.
  intros Hf Hk.
  unfold _get_identifier, bind, ret, lift, generate_identifier. rewrite Hf, Hk.
  cbn [negb andb]. cbn beta iota zeta. rewrite Hk. cbn [andb].
  unfold res_bind.
  repeat (cbn [andb negb];
          match goal with
          | |- context [if ?c then _ else _] => destruct c
          | |- context [match py_add ?x ?y with _ => _ end] => destruct (py_add x y)
          end);
    reflexivity.
Qed.

Lemma truthy_VStr_app (a s : string) : a <> "" -> truthy (VStr (a ++ s)) = true.
Proof. intros Ha. apply truthy_VStr. destruct a; [congruence|discriminate]. Qed.

(** X7: different arguments can share an identifier, hence a cache
    entry.  A kwarg value that already contains an underscore gives the
    identifier of the shorter value with the rest appended from the
    secondary kwarg; and two truthy values with the same [str()] (an
    integer and its decimal text) give the same identifier. *)
Theorem arguments_sharing_an_identifier
    (name : string) (idx : Z) (args : list pyval) (k1 k2 : gmap string pyval)
    (w : World) :
  (forall a s app : string,
     a <> "" -> s <> "" -> app <> "" ->
     kwargs_get k1 name = VStr (a ++ "_" ++ s) ->
     truthy (kwargs_get k1 app) = false ->
     kwargs_get k2 name = VStr a ->
     kwargs_get k2 app = VStr s ->
     _get_identifier VNone name (Some app) idx args k1 w
     = (Ok (VNone, active_profile_guid w ++ "_" ++ (a ++ "_" ++ s)), w)
     /\ _get_identifier VNone name (Some app) idx args k2 w
        = _get_identifier VNone name (Some app) idx args k1 w)
  /\
  (truthy (kwargs_get k1 name) = true ->
   truthy (kwargs_get k2 name) = true ->
   py_str (kwargs_get k1 name) = py_str (kwargs_get k2 name) ->
   _get_identifier VNone name None idx args k2 w
   = _get_identifier VNone name None idx args k1 w).
Proof.
  split.
  - intros a s app Ha Hs Happ H1 H1' H2 H2'.
    assert (truthy (kwargs_get k1 name) = true) as T1
      by (rewrite H1; now apply truthy_VStr_app).
    assert (truthy (kwargs_get k2 name) = true) as T2
      by (rewrite H2; now apply truthy_VStr).
    rewrite !get_identifier_from_kwarg by auto.
    cbn [kwargs_get_opt]. rewrite H1', H2', H1, H2.
    rewrite (proj2 (truthy_VStr s) Hs), (name_truthy_Some app Happ), andb_false_r.
    cbn. split; reflexivity.
  - intros T1 T2 Hstr.
    rewrite !get_identifier_from_kwarg by auto.
    cbn. now rewrite Hstr.
Qed.

Lemma string_app_inv_head (a s t : string) : a ++ s = a ++ t -> s = t.
Proof. induction a as [|c a IH]; simpl; [auto|]. intros [= E]. auto. Qed.

(** X8: with profile guids that contain no underscore, an identifier
    determines both the profile and the partial identifier it was
    generated from. *)
Theorem identifier_determines_profile_and_partial
    (pA pB : string) (wA wB : World) :
  underscore_free (active_profile_guid wA) = true ->
  underscore_free (active_profile_guid wB) = true ->
  fst (generate_identifier pA wA) = fst (generate_identifier pB wB) ->
  active_profile_guid wA = active_profile_guid wB /\ pA = pB.
Proof.
  intros HA HB E. cbn in E. injection E as E.
  destruct (string_dec (active_profile_guid wA) (active_profile_guid wB)) as [Hg|Hg].
  - split; [exact Hg|]. rewrite Hg in E.
    apply string_app_inv_head in E. now injection E.
  - exfalso. exact (profiles_never_share_identifiers _ _ pA pB HA HB Hg E).
Qed.

End IdentifierEdges.

Lemma append_needs_strings_witness :
  @cache_output Reference.service_py3 (CACHE_COMMON (@g Reference.service_py3))
    VNone "videoid" (Some "perpetual_range_start") 0 VNone Reference.counting_func
    [VStr "mylist"] {[ "perpetual_range_start" := VInt 40 ]}
    (Reference.service_world "PROFILE1")
  = (Raise TypeError, Reference.service_world "PROFILE1").
Proof.
  apply (@append_needs_strings Reference.service_py3
           (CACHE_COMMON (@g Reference.service_py3)) VNone "videoid"
           "perpetual_range_start" 0 VNone Reference.counting_func
           [VStr "mylist"] {[ "perpetual_range_start" := VInt 40 ]}
           (Reference.service_world "PROFILE1") (VStr "mylist")).
  - reflexivity.
  - right. repeat split; (reflexivity || discriminate).
  - reflexivity.
  - discriminate.
  - reflexivity.
  - right. right. left. exists 40. reflexivity.
Defined.

Lemma arguments_sharing_an_identifier_witness :
  (@_get_identifier Reference.service_py3 VNone "videoid" (Some "season") 0 []
     {[ "videoid" := VStr "show1_2" ]} (Reference.service_world "PROFILE1")
   = (Ok (VNone, "PROFILE1_show1_2"), Reference.service_world "PROFILE1")
   /\ @_get_identifier Reference.service_py3 VNone "videoid" (Some "season") 0 []
        {[ "videoid" := VStr "show1"; "season" := VStr "2" ]}
        (Reference.service_world "PROFILE1")
      = @_get_identifier Reference.service_py3 VNone "videoid" (Some "season") 0 []
          {[ "videoid" := VStr "show1_2" ]} (Reference.service_world "PROFILE1"))
  /\ @_get_identifier Reference.service_py3 VNone "videoid" None 0 []
       {[ "videoid" := VStr "80018294" ]} (Reference.service_world "PROFILE1")
     = @_get_identifier Reference.service_py3 VNone "videoid" None 0 []
         {[ "videoid" := VInt 80018294 ]} (Reference.service_world "PROFILE1").
Proof.
  destruct (@arguments_sharing_an_identifier Reference.service_py3 "videoid" 0 []
              {[ "videoid" := VStr "show1_2" ]}
              {[ "videoid" := VStr "show1"; "season" := VStr "2" ]}
              (Reference.service_world "PROFILE1")) as [Hunderscore _].
  destruct (@arguments_sharing_an_identifier Reference.service_py3 "videoid" 0 []
              {[ "videoid" := VInt 80018294 ]} {[ "videoid" := VStr "80018294" ]}
              (Reference.service_world "PROFILE1")) as [_ Hstr].
  split.
  - apply (Hunderscore "show1" "2" "season"); (reflexivity || discriminate).
  - apply Hstr; reflexivity.
Defined.

Lemma identifier_determines_profile_and_partial_witness :
  active_profile_guid (Reference.service_world "PROFILE1")
  = active_profile_guid (Reference.service_world "PROFILE1")
  /\ "show1" = "show1".
Proof.
  apply (@identifier_determines_profile_and_partial Reference.service_py3
           "show1" "show1"
           (Reference.service_world "PROFILE1") (Reference.service_world "PROFILE1"));
    reflexivity.
Defined.

(** ** The bucket registry and the payload *)

(** X9: the two tables of buckets agree, for every value of the
    globals: [BUCKET_NAMES] lists the names of [BUCKETS] in the same
    order, no name occurs twice, and the default ttl of a bucket is the
    metadata ttl exactly when the bucket is persistent, the common cache
    ttl otherwise. *)
Theorem bucket_registry_consistent (g0 : globals) :
  List.map name (BUCKETS g0) = BUCKET_NAMES
  /\ NoDup BUCKET_NAMES
  /\ Forall (fun bk => default_ttl bk =
                       if is_persistent bk then CACHE_METADATA_TTL g0 else CACHE_TTL g0)
       (BUCKETS g0).
Proof.
  split; [reflexivity|]. split.
  - apply (bool_decide_unpack _). vm_compute. exact I.
  - unfold BUCKETS. repeat constructor.
Qed.

Section Payload.
Context `{Platform}.
Import Base64.

Lemma char_of_in_alphabet (n : N) : (n < 64)%N -> In (char_of n) alphabet.
Proof.
  intros Hn. unfold char_of. apply nth_In.
  change (List.length alphabet) with 64%nat. lia.
Qed.

Ltac base64_chars :=
  repeat (apply List.Forall_cons;
          [first [left; apply char_of_in_alphabet; lia | right; reflexivity]|]);
  apply List.Forall_nil.

Lemma standard_b64encode_text (l : bytes) :
  is_text (standard_b64encode l)
  /\ List.length (standard_b64encode l) = (4 * ((List.length l + 2) / 3))%nat.
Proof.
  unfold is_text.
  induction l as [|a|a c|a c d l [IHt IHl]] using bytes_ind3.
  - split; [constructor|reflexivity].
  - pose proof (to_N_lt a). split; [|reflexivity].
    cbn [standard_b64encode]. unfold encode1. base64_chars.
  - pose proof (to_N_lt a). pose proof (to_N_lt c). split; [|reflexivity].
    cbn [standard_b64encode]. unfold encode2. base64_chars.
  - pose proof (to_N_lt a). pose proof (to_N_lt c). pose proof (to_N_lt d).
    change (standard_b64encode (a :: c :: d :: l))
      with (encode3 a c d ++ standard_b64encode l)%list.
    split.
    + apply Forall_app. split; [|exact IHt].
      unfold encode3. base64_chars.
    + rewrite List.length_app, IHl.
      change (List.length (encode3 a c d)) with 4%nat. cbn [List.length].
      replace (S (S (S (List.length l))) + 2)%nat
        with (List.length l + 2 + 1 * 3)%nat by lia.
      rewrite Nat.div_add by lia. lia.
Qed.

(** X10: what [_serialize_data] hands over.  On Python 2 the payload
    is text: it consists of characters of the base64 alphabet and of
    padding characters only, and its length is four characters for every
    three bytes of the pickle, rounded up; on Python 3 it is the pickle
    itself.  A value that pickle refuses is refused with the same
    exception on both. *)
Theorem serialized_payload_shape (v : pyval) :
  (forall d : bytes,
     pickle_dumps v = Ok d ->
     exists payload : bytes,
       _serialize_data v = Ok payload
       /\ (PY_IS_VER2 g = true ->
           is_text payload
           /\ List.length payload = (4 * ((List.length d + 2) / 3))%nat)
       /\ (PY_IS_VER2 g = false -> payload = d))
  /\ (forall e : exn, pickle_dumps v = Raise e -> _serialize_data v = Raise e).
Proof.
  split.
  - intros d Hd. unfold _serialize_data. rewrite Hd.
    destruct (PY_IS_VER2 g); cbn [res_bind]; eexists; (split; [reflexivity|]).
    + split; [|discriminate]. intros _. apply standard_b64encode_text.
    + split; [discriminate|]. reflexivity.
  - intros e He. unfold _serialize_data. rewrite He. now destruct (PY_IS_VER2 g).
Qed.

End Payload.

Lemma serialized_payload_shape_witness :
  exists payload : bytes,
    @_serialize_data Reference.client_py2 (VStr "episodes") = Ok payload
    /\ (true = true ->
        Base64.is_text payload /\ List.length payload = 12%nat)
    /\ (true = false -> payload = list_byte_of_string "Xepisodes").
Proof.
  destruct (@serialized_payload_shape Reference.client_py2 (VStr "episodes")) as [Hok _].
  exact (Hok (list_byte_of_string "Xepisodes") eq_refl).
Defined.

(** * The library of exported items (kodi/library.py) *)
Section LibraryFacts.
Import Library.
Context `{LibraryCache}.

Lemma subscript_app (n : node) (p q : list string) :
  subscript n (p ++ q) =
  match subscript n p with
  | Some m => subscript m q
  | None => None
  end.
Proof.
  revert n. induction p as [|k p IH]; intros n; [reflexivity|].
  simpl. destruct n as [s|d]; [reflexivity|].
  destruct (d !! k); [apply IH|reflexivity].
Qed.

(** After the walk, the file name is found under the id. *)
Lemma add_path_subscript (ids : list string) (f : string) (n n' : node) :
  add_path ids f n = Ok n' ->
  subscript n' (ids ++ ["file"])%list = Some (LStr f).
Proof.
  revert n n'. induction ids as [|k ids IH]; intros [s|d] n'; cbn; try discriminate.
  - intros [= <-]. cbn. now rewrite lookup_insert_eq.
  - destruct (add_path ids f _) as [c|e] eqn:E; cbn; [|discriminate].
    intros [= <-]. cbn. rewrite lookup_insert_eq. now apply (IH _ _ E).
Qed.

(** Whatever is not on the way to the new leaf, nor below it, is
    unchanged. *)
Lemma add_path_frame (ids : list string) (f : string) (n n' : node) (r : list string) :
  add_path ids f n = Ok n' ->
  ~ r `prefix_of` (ids ++ ["file"])%list ->
  ~ (ids ++ ["file"])%list `prefix_of` r ->
  subscript n' r = subscript n r.
Proof.
  revert n n' r. induction ids as [|k ids IH]; intros [s|d] n' r; cbn; try discriminate.
  - intros [= <-] Hr1 Hr2. destruct r as [|x r]; [destruct Hr1; apply prefix_nil|].
    cbn. destruct (decide (x = "file")) as [->|Hx].
    + destruct Hr2. apply prefix_cons, prefix_nil.
    + now rewrite lookup_insert_ne by congruence.
  - destruct (add_path ids f _) as [c|e] eqn:E; cbn; [|discriminate].
    intros [= <-] Hr1 Hr2. destruct r as [|x r]; [destruct Hr1; apply prefix_nil|].
    cbn. destruct (decide (x = k)) as [->|Hx].
    + rewrite lookup_insert_eq.
      rewrite (IH _ _ r E).
      * destruct (d !! k) as [child|]; [reflexivity|].
        destruct r as [|y r]; [|reflexivity].
        destruct Hr1. apply prefix_cons, prefix_nil.
      * intros Hp. apply Hr1. now apply prefix_cons.
      * intros Hp. apply Hr2. now apply prefix_cons.
    + now rewrite lookup_insert_ne by congruence.
Qed.

(** The walk fails exactly when a string lies on its way. *)
Lemma add_path_error (ids : list string) (f : string) (n : node) :
  (exists e, add_path ids f n = Raise e)
  <-> exists (q : list string) (s : string),
        q `prefix_of` ids /\ subscript n q = Some (LStr s).
Proof.
  revert n. induction ids as [|k ids IH]; intros [s|d]; cbn.
  - split; [|eauto]. intros _. exists [], s. split; [apply prefix_nil|reflexivity].
  - split; [intros [e He]; discriminate|].
    intros (q & s & Hq & Hs). apply prefix_nil_inv in Hq as ->. discriminate.
  - split; [|eauto]. intros _. exists [], s. split; [apply prefix_nil|reflexivity].
  - split.
    + intros [e He].
      destruct (add_path ids f _) as [c|e'] eqn:E; [discriminate|].
      destruct (proj1 (IH _) (ex_intro _ e' E)) as (q & s & Hq & Hs).
      destruct (d !! k) as [child|] eqn:Hk.
      * exists (k :: q), s. split; [now apply prefix_cons|]. cbn. now rewrite Hk.
      * destruct q as [|y q]; [discriminate|]. cbn in Hs.
        rewrite lookup_empty in Hs. discriminate.
    + intros (q & s & Hq & Hs).
      destruct q as [|y q]; [discriminate|].
      apply prefix_cons_inv_1 in Hq as Hy. subst y.
      apply prefix_cons_inv_2 in Hq.
      cbn in Hs. destruct (d !! k) as [child|]; [|discriminate].
      destruct (proj2 (IH child)) as [e He]; [eauto|].
      exists e. now rewrite He.
Qed.

Lemma add_path_TypeError (ids : list string) (f : string) (n : node) (e : exn) :
  add_path ids f n = Raise e -> e = TypeError.
Proof.
  revert n. induction ids as [|k ids IH]; intros [s|d]; cbn; try congruence.
  destruct (add_path ids f _) as [c|e'] eqn:E; cbn; [discriminate|].
  intros [= <-]. eapply IH, E.
Qed.

End LibraryFacts.

Section LibraryUpdates.
Import Library.
Context `{LibraryCache}.

Lemma library_saved (w w0 : State) (r : res node) :
  _library w = (r, w0) -> saved w0 = saved w.
Proof.
  unfold _library, load_library.
  destruct (LIBRARY w) as [l|]; [destruct (library_truthy (Some l))|];
    try (intros [= _ <-]; reflexivity);
    destruct (cache_get_library (disk w)) as [[v|[]] d]; intros [= _ <-]; reflexivity.
Qed.

Lemma add_path_truthy (ids : list string) (f : string) (n n' : node) :
  add_path ids f n = Ok n' -> library_truthy (Some n') = true.
Proof.
  destruct n as [s|d]; [destruct ids; discriminate|].
  destruct ids as [|k ids]; cbn.
  - intros [= <-]. cbn. apply negb_true_iff, bool_decide_eq_false.
    apply insert_non_empty.
  - destruct (add_path ids f _) as [c|e]; cbn; [|discriminate].
    intros [= <-]. cbn. apply negb_true_iff, bool_decide_eq_false.
    apply insert_non_empty.
Qed.

Lemma library_in_memory (w : State) (l : node) :
  LIBRARY w = Some l -> library_truthy (Some l) = true -> _library w = (Ok l, w).
Proof. intros Hl Ht. unfold _library. now rewrite Hl, Ht. Qed.

Lemma add_to_library_Ok (ids : list string) (f : string) (w w0 w' : State) (lib0 : node) :
  _library w = (Ok lib0, w0) ->
  _add_to_library ids f w = (Ok tt, w') ->
  exists updated cached,
    add_path ids f lib0 = Ok updated
    /\ w' = mkState _ (Some updated) cached (saved w ++ [updated])%list.
Proof.
  intros Hl. unfold _add_to_library. rewrite Hl.
  destruct (add_path ids f lib0) as [updated|e]; [|discriminate].
  unfold save_library. cbn [LIBRARY disk saved].
  destruct (cache_add_library updated (disk w0)) as [r d].
  intros [= -> <-]. rewrite (library_saved _ _ _ Hl). eauto.
Qed.

(** X11: an added item is found again.  When [_add_to_library] returns,
    the library in memory has the file name under the elements of the id
    followed by ['file'], that library is what was handed to the cache,
    once, and [_library] returns it without reading the cache. *)
Theorem add_to_library_then_subscript
    (ids : list string) (f : string) (w w' : State) :
  _add_to_library ids f w = (Ok tt, w') ->
  exists updated : node,
    LIBRARY w' = Some updated
    /\ subscript updated (ids ++ ["file"])%list = Some (LStr f)
    /\ saved w' = (saved w ++ [updated])%list
    /\ _library w' = (Ok updated, w').
Proof.
  intros Hadd.
  destruct (_library w) as [[lib0|e] w0] eqn:Hl.
  - destruct (add_to_library_Ok ids f w w0 w' lib0 Hl Hadd)
      as (updated & cached & Hp & ->).
    exists updated. cbn [LIBRARY saved].
    split; [reflexivity|]. split; [now apply (add_path_subscript ids f lib0)|].
    split; [reflexivity|].
    apply library_in_memory; [reflexivity|]. now apply (add_path_truthy ids f lib0).
  - unfold _add_to_library in Hadd. rewrite Hl in Hadd. discriminate.
Qed.

(** X12: the other items are untouched.  After [_add_to_library], every
    chain of keys that is neither on the way to the new ['file'] entry nor
    below it leads where it led in the library that [_library] returned
    before. *)
Theorem add_to_library_keeps_other_items
    (ids : list string) (f : string) (w w0 w' : State) (lib0 : node) :
  _library w = (Ok lib0, w0) ->
  _add_to_library ids f w = (Ok tt, w') ->
  exists updated : node,
    LIBRARY w' = Some updated
    /\ forall r : list string,
         ~ r `prefix_of` (ids ++ ["file"])%list ->
         ~ (ids ++ ["file"])%list `prefix_of` r ->
         subscript updated r = subscript lib0 r.
Proof.
  intros Hl Hadd.
  destruct (add_to_library_Ok ids f w w0 w' lib0 Hl Hadd) as (updated & cached & Hp & ->).
  exists updated. split; [reflexivity|].
  intros r Hr1 Hr2. now apply (add_path_frame ids f lib0).
Qed.

(** X13: a string on the way is a [TypeError], and nothing is saved.
    When some prefix of the id leads to a string in the library (a
    ['file'] entry used as an element of an id), [_add_to_library] raises
    [TypeError], the library that [_library] returned stays as it is and
    the cache is not written; otherwise the updated library is handed to
    the cache. *)
Theorem add_to_library_through_a_string
    (ids : list string) (f : string) (w w0 : State) (lib0 : node) :
  _library w = (Ok lib0, w0) ->
  ((exists (q : list string) (s : string),
      q `prefix_of` ids /\ subscript lib0 q = Some (LStr s)) ->
   _add_to_library ids f w = (Raise TypeError, w0)
   /\ saved w0 = saved w)
  /\
  (~ (exists (q : list string) (s : string),
        q `prefix_of` ids /\ subscript lib0 q = Some (LStr s)) ->
   exists updated : node,
     add_path ids f lib0 = Ok updated
     /\ saved (snd (_add_to_library ids f w)) = (saved w ++ [updated])%list
     /\ LIBRARY (snd (_add_to_library ids f w)) = Some updated).
Proof.
  intros Hl. split.
  - intros Hstr. apply (add_path_error ids f lib0) in Hstr as [e He].
    pose proof (add_path_TypeError _ _ _ _ He) as ->.
    unfold _add_to_library. rewrite Hl, He.
    split; [reflexivity|]. exact (library_saved _ _ _ Hl).
  - intros Hno.
    destruct (add_path ids f lib0) as [updated|e] eqn:E.
    + exists updated. split; [reflexivity|].
      unfold _add_to_library. rewrite Hl, E.
      unfold save_library. cbn [LIBRARY disk saved].
      destruct (cache_add_library updated (disk w0)) as [r d]. cbn [snd saved LIBRARY].
      now rewrite (library_saved _ _ _ Hl).
    + destruct Hno. apply (add_path_error ids f lib0). eauto.
Qed.

Lemma add_path_overwrite (ids : list string) (f1 f2 : string) (n n1 : node) :
  add_path ids f1 n = Ok n1 ->
  add_path ids f2 n1 = add_path ids f2 n.
Proof.
  revert n n1. induction ids as [|k ids IH]; intros [s|d] n1; cbn; try discriminate.
  - intros [= <-]. cbn. now rewrite insert_insert_eq.
  - destruct (add_path ids f1 _) as [c|e] eqn:E; cbn; [|discriminate].
    intros [= <-]. cbn. rewrite lookup_insert_eq.
    rewrite (IH _ _ E).
    destruct (add_path ids f2 _) as [c2|e2]; cbn; [|reflexivity].
    now rewrite insert_insert_eq.
Qed.

(** X14: the last export of an item wins.  Adding an item again, with
    the same or another file name, leaves the library as if only the
    last addition had been made. *)
Theorem add_to_library_last_wins
    (ids : list string) (f1 f2 : string) (w w1 : State) :
  _add_to_library ids f1 w = (Ok tt, w1) ->
  LIBRARY (snd (_add_to_library ids f2 w1)) = LIBRARY (snd (_add_to_library ids f2 w)).
Proof.
  intros Hadd.
  destruct (_library w) as [[lib0|e] w0] eqn:Hl.
  - destruct (add_to_library_Ok ids f1 w w0 w1 lib0 Hl Hadd)
      as (updated & cached & Hp & ->).
    unfold _add_to_library at 1.
    rewrite (library_in_memory
               (mkState _ (Some updated) cached (saved w ++ [updated])%list) updated
               eq_refl (add_path_truthy _ _ _ _ Hp)).
    rewrite (add_path_overwrite ids f1 f2 lib0 updated Hp).
    unfold _add_to_library. rewrite Hl.
    destruct (add_path ids f2 lib0) as [u2|e2] eqn:E2.
    + unfold save_library. cbn [LIBRARY disk saved].
      destruct (cache_add_library u2 cached) as [r d].
      now destruct (cache_add_library u2 (disk w0)) as [r' d'].
    + assert (exists e, add_path ids f1 lib0 = Raise e) as [e He].
      { apply add_path_error. apply (add_path_error ids f2 lib0). eauto. }
      congruence.
  - unfold _add_to_library in Hadd. rewrite Hl in Hadd. discriminate.
Qed.

End LibraryUpdates.

Lemma add_to_library_then_subscript_witness :
  let w' :=
    snd (@Library._add_to_library Library.last_saved
           ["80018294"; "80018295"; "80018296"] "/library/shows/Show/S01E01.strm"
           Library.fresh) in
  exists updated : Library.node,
    Library.LIBRARY w' = Some updated
    /\ Library.subscript updated
         (["80018294"; "80018295"; "80018296"] ++ ["file"])%list
       = Some (Library.LStr "/library/shows/Show/S01E01.strm")
    /\ Library.saved w' = (Library.saved Library.fresh ++ [updated])%list
    /\ @Library._library Library.last_saved w' = (Ok updated, w').
Proof.
  intros w'.
  apply (@add_to_library_then_subscript Library.last_saved
           ["80018294"; "80018295"; "80018296"] "/library/shows/Show/S01E01.strm"
           Library.fresh w').
  reflexivity.
Defined.

Lemma add_to_library_keeps_other_items_witness :
  let w1 :=
    snd (@Library._add_to_library Library.last_saved ["70000001"]
           "/library/movies/A (2001)/A (2001).strm" Library.fresh) in
  let w2 :=
    snd (@Library._add_to_library Library.last_saved ["70000002"]
           "/library/movies/B (2002)/B (2002).strm" w1) in
  exists updated : Library.node,
    Library.LIBRARY w2 = Some updated
    /\ Library.subscript updated ["70000001"; "file"]
       = Some (Library.LStr "/library/movies/A (2001)/A (2001).strm").
Proof.
  intros w1 w2.
  destruct (Library.LIBRARY w1) as [lib1|] eqn:Hlib1; [|discriminate].
  destruct (@add_to_library_keeps_other_items Library.last_saved ["70000002"]
              "/library/movies/B (2002)/B (2002).strm" w1 w1 w2 lib1)
    as (updated & Hu & Hframe).
  - injection Hlib1 as <-. reflexivity.
  - reflexivity.
  - exists updated. split; [exact Hu|].
    rewrite Hframe.
    + injection Hlib1 as <-. reflexivity.
    + intros [k Hk]. discriminate.
    + intros [k Hk]. discriminate.
Defined.

Lemma add_to_library_through_a_string_witness :
  let w1 :=
    snd (@Library._add_to_library Library.last_saved ["70000001"]
           "/library/movies/A (2001)/A (2001).strm" Library.fresh) in
  @Library._add_to_library Library.last_saved ["70000001"; "file"] "x.strm" w1
  = (Raise TypeError, w1)
  /\ Library.saved w1 = Library.saved w1.
Proof.
  intros w1.
  destruct (Library.LIBRARY w1) as [lib1|] eqn:Hlib1; [|discriminate].
  destruct (@add_to_library_through_a_string Library.last_saved
              ["70000001"; "file"] "x.strm" w1 w1 lib1) as [Herr _].
  - injection Hlib1 as <-. reflexivity.
  - apply Herr.
    exists ["70000001"; "file"], "/library/movies/A (2001)/A (2001).strm".
    split; [reflexivity|]. injection Hlib1 as <-. reflexivity.
Defined.

Lemma add_to_library_last_wins_witness :
  let w1 :=
    snd (@Library._add_to_library Library.last_saved ["70000001"] "old.strm"
           Library.fresh) in
  Library.LIBRARY
    (snd (@Library._add_to_library Library.last_saved ["70000001"] "new.strm" w1))
  = Library.LIBRARY
      (snd (@Library._add_to_library Library.last_saved ["70000001"] "new.strm"
              Library.fresh)).
Proof.
  intros w1.
  apply (@add_to_library_last_wins Library.last_saved ["70000001"] "old.strm" "new.strm"
           Library.fresh w1).
  reflexivity.
Defined.

(** * The export tasks of a show (kodi/library.py) *)
Section Formatting.
Import Tasks.

Lemma string_of_uint_nonempty (u : Decimal.uint) :
  u <> Decimal.Nil -> NilEmpty.string_of_uint u <> "".
Proof. destruct u; simpl; congruence. Qed.

(** A number is read back from its padded decimal form. *)
Lemma pad2_decode (z : Z) :
  option_map Z.of_int (NilZero.int_of_string (pad2 (py_str (VInt z)))) = Some z.
Proof.
  destruct z as [|p|p].
  - reflexivity.
  - assert (option_map Z.of_int
              (NilZero.int_of_string (py_str (VInt (Z.pos p)))) = Some (Z.pos p)) as Hplain.
    { cbn [py_str]. rewrite NilZero.isi.
      - cbn [option_map]. now rewrite DecimalZ.of_to.
      - cbn. intros [= E]. now apply (DecimalPos.Unsigned.to_uint_nonnil p).
      - discriminate. }
    unfold pad2. destruct (Nat.ltb _ 2); [|exact Hplain].
    cbn [py_str Z.to_int NilZero.string_of_int].
    pose proof (DecimalPos.Unsigned.to_uint_nonnil p) as Hnil.
    assert (NilZero.string_of_uint (Pos.to_uint p)
            = NilEmpty.string_of_uint (Pos.to_uint p)) as ->
      by (destruct (Pos.to_uint p); [congruence|reflexivity..]).
    change ("0" ++ NilEmpty.string_of_uint (Pos.to_uint p))
      with (String "0" (NilEmpty.string_of_uint (Pos.to_uint p))).
    unfold NilZero.int_of_string, NilZero.uint_of_string.
    change (Ascii.eqb "0" "-") with false. cbn [NilEmpty.uint_of_string].
    rewrite NilEmpty.usu. cbn [uint_of_char option_map Z.of_int Z.of_uint Pos.of_uint].
    unfold Z.of_uint. cbn [Pos.of_uint].
    now rewrite DecimalPos.Unsigned.of_to.
  - assert (pad2 (py_str (VInt (Z.neg p))) = py_str (VInt (Z.neg p))) as ->.
    { unfold pad2. cbn [py_str Z.to_int NilZero.string_of_int].
      pose proof (DecimalPos.Unsigned.to_uint_nonnil p) as Hnil.
      assert (NilZero.string_of_uint (Pos.to_uint p)
              = NilEmpty.string_of_uint (Pos.to_uint p)) as ->
        by (destruct (Pos.to_uint p); [congruence|reflexivity..]).
      pose proof (string_of_uint_nonempty _ Hnil) as Hne.
      destruct (NilEmpty.string_of_uint (Pos.to_uint p)); [congruence|reflexivity]. }
    cbn [py_str]. rewrite NilZero.isi.
    + cbn [option_map]. now rewrite DecimalZ.of_to.
    + discriminate.
    + cbn. intros [= E]. now apply (DecimalPos.Unsigned.to_uint_nonnil p).
Qed.

Lemma pad2_inj (a c : Z) :
  pad2 (py_str (VInt a)) = pad2 (py_str (VInt c)) -> a = c.
Proof.
  intros E. pose proof (pad2_decode a) as Ha. rewrite E, pad2_decode in Ha.
  now injection Ha.
Qed.

Lemma string_of_uint_no_E (u : Decimal.uint) :
  ~ In "E"%char (list_ascii_of_string (NilEmpty.string_of_uint u)).
Proof.
  induction u; simpl; try tauto; intros [Hc|Hin]; solve [discriminate|auto].
Qed.

Lemma pad2_no_E (z : Z) :
  ~ In "E"%char (list_ascii_of_string (pad2 (py_str (VInt z)))).
Proof.
  assert (~ In "E"%char (list_ascii_of_string (py_str (VInt z)))) as Hs.
  { cbn [py_str]. destruct z as [|p|p]; cbn [Z.to_int NilZero.string_of_int].
    - simpl. intros [Hc|[]]. discriminate.
    - pose proof (DecimalPos.Unsigned.to_uint_nonnil p).
      replace (NilZero.string_of_uint (Pos.to_uint p))
        with (NilEmpty.string_of_uint (Pos.to_uint p))
        by (destruct (Pos.to_uint p); [congruence|reflexivity..]).
      apply string_of_uint_no_E.
    - pose proof (DecimalPos.Unsigned.to_uint_nonnil p).
      replace (NilZero.string_of_uint (Pos.to_uint p))
        with (NilEmpty.string_of_uint (Pos.to_uint p))
        by (destruct (Pos.to_uint p); [congruence|reflexivity..]).
      simpl. intros [Hc|Hin]; [discriminate|].
      now apply (string_of_uint_no_E (Pos.to_uint p)). }
  unfold pad2. destruct (Nat.ltb _ 2); [|exact Hs].
  simpl. intros [Hc|Hin]; [discriminate|auto].
Qed.

(** The text before the first [E] and the text after it are determined. *)
Lemma split_at_E (a a' c c' : string) :
  ~ In "E"%char (list_ascii_of_string a) ->
  ~ In "E"%char (list_ascii_of_string a') ->
  a ++ "E" ++ c = a' ++ "E" ++ c' ->
  a = a' /\ c = c'.
Proof.
  revert a'. induction a as [|x a IH]; intros [|y a'] Ha Ha'; simpl; intros E.
  - injection E as E. auto.
  - injection E as E _. subst y. destruct Ha'. simpl. auto.
  - injection E as E _. subst x. destruct Ha. simpl. auto.
  - injection E as -> E. destruct (IH a') as [-> ->]; auto.
    + intros Hin. apply Ha. simpl. auto.
    + intros Hin. apply Ha'. simpl. auto.
Qed.

End Formatting.

Section TaskFacts.
Import Tasks.
Context `{VideoIds}.

Lemma comprehension_Forall2 {A B : Type} (body : A -> res B) (l : list A) (ys : list B) :
  comprehension body l = Ok ys -> Forall2 (fun x y => body x = Ok y) l ys.
Proof.
  revert ys. induction l as [|x l IH]; intros ys; simpl.
  - intros [= <-]. constructor.
  - destruct (body x) as [y|e] eqn:E; [|discriminate]. simpl.
    destruct (comprehension body l) as [ys'|e]; [|discriminate]. simpl.
    intros [= <-]. constructor; auto.
Qed.

Lemma getitem_truthy (v x : json) (key : string) :
  getitem v key = Ok x -> json_truthy v = true.
Proof.
  destruct v as [| | | | |d]; try discriminate. simpl.
  destruct (d !! key) eqn:E; [|discriminate]. intros _.
  apply negb_true_iff, bool_decide_eq_false. intros ->.
  now rewrite lookup_empty in E.
Qed.

(** What a task of an episode is made of. *)
Lemma episode_task_fields (v : VideoId) (metadata season episode : json) (t : task) :
  json_truthy season = true ->
  json_truthy episode = true ->
  _create_episode_task v metadata season episode = Ok t ->
  section t = FOLDER_TV
  /\ videoid t = v
  /\ getitem metadata "title" = Ok (JStr (destination t))
  /\ exists (a c : json) (s e eptitle : string),
       getitem season "seq" = Ok a /\ format_02d a = Ok s
       /\ getitem episode "seq" = Ok c /\ format_02d c = Ok e
       /\ getitem episode "title" = Ok (JStr eptitle)
       /\ filename t = "S" ++ s ++ "E" ++ e
       /\ title t = destination t ++ " - " ++ filename t ++ " - " ++ eptitle.
Proof.
  intros Hs He. unfold _create_episode_task. rewrite Hs, He.
  destruct (getitem metadata "title") as [showname|?]; [|discriminate]. simpl.
  destruct (getitem episode "title") as [eptitle|?]; [|discriminate]. simpl.
  destruct (getitem season "seq") as [a|?]; [|discriminate]. simpl.
  destruct (getitem episode "seq") as [c|?]; [|discriminate]. simpl.
  destruct (format_02d a) as [s|?] eqn:Hfa; [|discriminate]. simpl.
  destruct (format_02d c) as [e|?] eqn:Hfc; [|discriminate]. simpl.
  destruct showname; try discriminate. simpl.
  destruct eptitle; try discriminate. simpl.
  intros [= <-]. cbn.
  repeat split. exists a, c, s, e. eexists. repeat split; auto.
Qed.

Lemma season_tasks_Forall2 (v : VideoId) (metadata season : json) (ts : list task) :
  _compile_season_tasks v metadata season = Ok ts ->
  exists episodes,
    res_bind (getitem season "episodes") py_iter = Ok episodes
    /\ Forall2
         (fun episode t =>
            exists id v',
              getitem episode "id" = Ok id
              /\ derive_episode v id = Ok v'
              /\ _create_episode_task v' metadata season episode = Ok t)
         episodes ts.
Proof.
  unfold _compile_season_tasks.
  destruct (getitem season "episodes") as [eps|?]; [|discriminate]. simpl.
  destruct (py_iter eps) as [episodes|?]; [|discriminate]. simpl.
  intros Hc. exists episodes. split; [reflexivity|].
  apply comprehension_Forall2 in Hc.
  eapply Forall2_impl; [exact Hc|]. cbn beta.
  intros episode t Hb.
  destruct (getitem episode "id") as [id|?] eqn:Hid; [|discriminate]. simpl in Hb.
  destruct (derive_episode v id) as [v'|?] eqn:Hv; [|discriminate]. simpl in Hb.
  exists id, v'. auto.
Qed.

Lemma show_tasks_Forall2 (v : VideoId) (metadata : json) (tasks : list task) :
  _compile_show_tasks v metadata = Ok tasks ->
  exists seasons per_season,
    res_bind (getitem metadata "seasons") py_iter = Ok seasons
    /\ tasks = List.concat per_season
    /\ Forall2
         (fun season ts =>
            exists id v',
              getitem season "id" = Ok id
              /\ derive_season v id = Ok v'
              /\ _compile_season_tasks v' metadata season = Ok ts)
         seasons per_season.
Proof.
  unfold _compile_show_tasks.
  destruct (getitem metadata "seasons") as [ss|?]; [|discriminate]. simpl.
  destruct (py_iter ss) as [seasons|?]; [|discriminate]. simpl.
  destruct (comprehension _ seasons) as [per_season|?] eqn:Hc; [|discriminate]. simpl.
  intros [= <-]. exists seasons, per_season. split; [reflexivity|]. split; [reflexivity|].
  apply comprehension_Forall2 in Hc.
  eapply Forall2_impl; [exact Hc|]. cbn beta.
  intros season ts Hb.
  destruct (getitem season "id") as [id|?] eqn:Hid; [|discriminate]. simpl in Hb.
  destruct (derive_season v id) as [v'|?] eqn:Hv; [|discriminate]. simpl in Hb.
  exists id, v'. auto.
Qed.

(** X15: one task per episode.  When [_compile_show_tasks] returns, the
    number of tasks is the number of episodes of the seasons of the
    metadata, summed over the seasons. *)
Theorem show_tasks_count (v : VideoId) (metadata : json) (tasks : list task) :
  _compile_show_tasks v metadata = Ok tasks ->
  exists seasons : list json,
    res_bind (getitem metadata "seasons") py_iter = Ok seasons
    /\ List.length tasks
       = list_sum
           (List.map (fun season => iteration_length (getitem season "episodes"))
              seasons).
Proof.
  intros Hshow.
  destruct (show_tasks_Forall2 v metadata tasks Hshow)
    as (seasons & per_season & Hs & -> & Hall).
  exists seasons. split; [exact Hs|].
  clear Hs Hshow. induction Hall as [|season ts seasons per_season Hseason _ IH].
  - reflexivity.
  - destruct Hseason as (id & v' & _ & _ & Ht).
    destruct (season_tasks_Forall2 v' metadata season ts Ht) as (episodes & He & Hf).
    assert (List.length ts = iteration_length (getitem season "episodes")) as Hlen.
    { unfold iteration_length. rewrite He.
      symmetry. exact (Forall2_length _ _ _ Hf). }
    cbn [List.concat List.map list_sum]. now rewrite List.length_app, IH, Hlen.
Qed.

(** X16: every episode of a show is exported to the folder of the show.
    Every task that [_compile_show_tasks] returns has the section
    ['shows'] and, as destination, the title of the metadata, which is a
    string; its title is the destination, the file name and the title of
    the episode, joined by [' - ']. *)
Theorem show_tasks_share_folder (v : VideoId) (metadata : json) (tasks : list task) :
  _compile_show_tasks v metadata = Ok tasks ->
  Forall
    (fun t =>
       section t = "shows"
       /\ getitem metadata "title" = Ok (JStr (destination t))
       /\ exists eptitle : string,
            title t = destination t ++ " - " ++ filename t ++ " - " ++ eptitle)
    tasks.
Proof.
  intros Hshow.
  destruct (show_tasks_Forall2 v metadata tasks Hshow)
    as (seasons & per_season & _ & -> & Hall).
  clear Hshow. induction Hall as [|season ts seasons per_season Hseason _ IH].
  - constructor.
  - cbn [List.concat]. apply Forall_app. split; [|exact IH].
    destruct Hseason as (id & v' & Hid & _ & Ht).
    destruct (season_tasks_Forall2 v' metadata season ts Ht) as (episodes & _ & Hf).
    pose proof (getitem_truthy _ _ _ Hid) as Hseason.
    clear Ht. induction Hf as [|episode t episodes ts (eid & v'' & Heid & _ & Hep) _ IHe].
    + constructor.
    + constructor; [|exact IHe].
      destruct (episode_task_fields v'' metadata season episode t Hseason
                  (getitem_truthy _ _ _ Heid) Hep)
        as (Hsec & _ & Hdest & (a & c & s & e & eptitle & _ & _ & _ & _ & _ & _ & Htitle)).
      split; [exact Hsec|]. split; [exact Hdest|]. eauto.
Qed.

(** X17: file names tell episodes apart.  Two episode tasks whose
    seasons and episodes carry integer sequence numbers have the same
    file name only if the season numbers are equal and the episode
    numbers are equal. *)
Theorem episode_filenames_distinct
    (v1 v2 : VideoId) (md1 md2 season1 season2 episode1 episode2 : json)
    (t1 t2 : task) (a1 c1 a2 c2 : Z) :
  _create_episode_task v1 md1 season1 episode1 = Ok t1 ->
  _create_episode_task v2 md2 season2 episode2 = Ok t2 ->
  getitem season1 "seq" = Ok (JInt a1) ->
  getitem episode1 "seq" = Ok (JInt c1) ->
  getitem season2 "seq" = Ok (JInt a2) ->
  getitem episode2 "seq" = Ok (JInt c2) ->
  filename t1 = filename t2 ->
  a1 = a2 /\ c1 = c2.
Proof.
  intros H1 H2 Ha1 Hc1 Ha2 Hc2 Hf.
  destruct (episode_task_fields v1 md1 season1 episode1 t1
              (getitem_truthy _ _ _ Ha1) (getitem_truthy _ _ _ Hc1) H1)
    as (_ & _ & _ & (x1 & y1 & s1 & e1 & ? & Hx1 & Hs1 & Hy1 & He1 & _ & Hn1 & _)).
  destruct (episode_task_fields v2 md2 season2 episode2 t2
              (getitem_truthy _ _ _ Ha2) (getitem_truthy _ _ _ Hc2) H2)
    as (_ & _ & _ & (x2 & y2 & s2 & e2 & ? & Hx2 & Hs2 & Hy2 & He2 & _ & Hn2 & _)).
  rewrite Ha1 in Hx1. rewrite Hc1 in Hy1. rewrite Ha2 in Hx2. rewrite Hc2 in Hy2.
  injection Hx1 as <-. injection Hy1 as <-. injection Hx2 as <-. injection Hy2 as <-.
  cbn [format_02d] in Hs1, He1, Hs2, He2.
  injection Hs1 as <-. injection He1 as <-. injection Hs2 as <-. injection He2 as <-.
  rewrite Hn1, Hn2 in Hf. simpl in Hf. injection Hf as Hf.
  apply split_at_E in Hf as [Hs He]; try apply pad2_no_E.
  split; [now apply pad2_inj|now apply pad2_inj].
Qed.

End TaskFacts.

Lemma show_tasks_count_witness :
  @Tasks._compile_show_tasks Tasks.list_ids ["80100172"] Tasks.example_show
  = Ok Tasks.example_tasks
  /\ exists seasons : list Tasks.json,
       res_bind (Tasks.getitem Tasks.example_show "seasons") Tasks.py_iter = Ok seasons
       /\ List.length Tasks.example_tasks
          = list_sum
              (List.map
                 (fun season => Tasks.iteration_length (Tasks.getitem season "episodes"))
                 seasons).
Proof.
  split; [vm_compute; reflexivity|].
  apply (@show_tasks_count Tasks.list_ids ["80100172"] Tasks.example_show Tasks.example_tasks).
  vm_compute; reflexivity.
Defined.

Lemma show_tasks_share_folder_witness :
  @Tasks._compile_show_tasks Tasks.list_ids ["80100172"] Tasks.example_show
  = Ok Tasks.example_tasks
  /\ Forall
       (fun t =>
          @Tasks.section Tasks.list_ids t = "shows"
          /\ Tasks.getitem Tasks.example_show "title"
             = Ok (Tasks.JStr (@Tasks.destination Tasks.list_ids t))
          /\ exists eptitle : string,
               @Tasks.title Tasks.list_ids t
               = @Tasks.destination Tasks.list_ids t ++ " - "
                 ++ @Tasks.filename Tasks.list_ids t ++ " - " ++ eptitle)
       Tasks.example_tasks.
Proof.
  split; [vm_compute; reflexivity|].
  apply (@show_tasks_share_folder Tasks.list_ids ["80100172"] Tasks.example_show
           Tasks.example_tasks).
  vm_compute; reflexivity.
Defined.

Lemma episode_filenames_distinct_witness :
  @Tasks._create_episode_task Tasks.list_ids ["80100172"; "s1"; "e1"] Tasks.example_show
    (Tasks.season_json "s1" 1 []) (Tasks.episode_json "e1" 1 "Secrets")
  = Ok (@Tasks.mkTask Tasks.list_ids "Dark - S01E01 - Secrets" "shows"
          ["80100172"; "s1"; "e1"] "Dark" "S01E01")
  /\ @Tasks._create_episode_task Tasks.list_ids ["80100172"; "s9"; "e7"] Tasks.example_show
       (Tasks.season_json "s9" 1 []) (Tasks.episode_json "e7" 1 "Pilot")
     = Ok (@Tasks.mkTask Tasks.list_ids "Dark - S01E01 - Pilot" "shows"
             ["80100172"; "s9"; "e7"] "Dark" "S01E01")
  /\ (1 = 1 /\ 1 = 1).
Proof.
  split; [vm_compute; reflexivity|]. split; [vm_compute; reflexivity|].
  apply (@episode_filenames_distinct Tasks.list_ids
           ["80100172"; "s1"; "e1"] ["80100172"; "s9"; "e7"]
           Tasks.example_show Tasks.example_show
           (Tasks.season_json "s1" 1 []) (Tasks.season_json "s9" 1 [])
           (Tasks.episode_json "e1" 1 "Secrets") (Tasks.episode_json "e7" 1 "Pilot")
           (@Tasks.mkTask Tasks.list_ids "Dark - S01E01 - Secrets" "shows"
              ["80100172"; "s1"; "e1"] "Dark" "S01E01")
           (@Tasks.mkTask Tasks.list_ids "Dark - S01E01 - Pilot" "shows"
              ["80100172"; "s9"; "e7"] "Dark" "S01E01")
           1 1 1 1); vm_compute; reflexivity.
Defined.
